(** * Bitcoin dashboard: the polling and aggregation engine of [App.js]

    A shallow embedding of the data-fetching part of the React component
    [App] (src/src/App.js, and the variant of it that awaits its four
    fetches in sequence), followed by the properties its specification
    states about it.

    - JSON payloads are JavaScript values ([JsValue]); a number is an IEEE
      binary64 float; a string is written as a Rocq string holding the
      UTF-8 bytes of its text (a lone surrogate as its three-byte form),
      and is indexed by UTF-16 code unit as JavaScript does ([charAt]).
    - The seven [useState] cells form the record [AppState]; a setter call
      is a [Setter] applied with [applySetter].
    - An [async] function is a finite tree ([Async]) of setter calls and
      suspension points ([await fetch(..)], [await response.json()]); the
      network decides how each suspension is settled, the host's event loop
      decides in which order suspended functions are resumed.
    - Timers ([setInterval], [clearInterval]) run on a virtual clock that
      counts milliseconds. *)

From Stdlib Require Import String Ascii List Bool Arith NArith ZArith Lia Permutation.
From Stdlib Require Import DecimalString Floats.PrimFloat Floats.SpecFloat Floats.FloatOps Uint63.
Import ListNotations.

Local Open Scope string_scope.
Local Open Scope list_scope.

Set Implicit Arguments.
Set Warnings "-register-all".

(* ================================================================== *)
(** ** JavaScript values *)
(* ================================================================== *)

Inductive JsValue : Type :=
| JUndefined
| JNull
| JBool (b : bool)
| JNum (n : float)
| JStr (s : string)
| JArr (elems : list JsValue)
| JObj (props : list (string * JsValue)).

(** A thrown value.  Everything this program throws or receives as a
    rejection is an [Error] object ([Error], [TypeError], [SyntaxError]);
    the only thing read from it is [err.message]. *)
Record Error : Type := mkError { message : string }.

(** The result of evaluating an expression: it throws or yields a value. *)
Definition Exc (A : Type) : Type := (Error + A)%type.

Definition ok_ {A} (a : A) : Exc A := inr a.
Definition raise {A} (e : Error) : Exc A := inl e.

Definition ebind {A B} (m : Exc A) (f : A -> Exc B) : Exc B :=
  match m with
  | inl e => inl e
  | inr a => f a
  end.

Fixpoint mapM {A B} (f : A -> Exc B) (l : list A) : Exc (list B) :=
  match l with
  | [] => ok_ []
  | x :: rest =>
      ebind (f x) (fun y => ebind (mapM f rest) (fun ys => ok_ (y :: ys)))
  end.

(** What the host (engine, locale, clock) decides and the program does not:
    the local hour of [new Date(v)], and the wording of a [TypeError]. *)
Record Host : Type := mkHost {
  (** [new Date(v).getHours()]; [None] is [NaN] (an invalid date). *)
  Date_getHours : JsValue -> option nat;
  (** message of the [TypeError] raised by reading property [p] of
      [undefined] or [null] *)
  msgCannotRead : JsValue -> string -> string;
  (** message of the [TypeError] raised by calling something that is not a
      function; the argument is the callee as written in the source *)
  msgNotAFunction : string -> string;
  (** message of the [TypeError] raised when an object cannot be converted
      to a primitive value *)
  msgCannotConvert : JsValue -> string
}.

(** ToBoolean. *)
Definition truthy (v : JsValue) : bool :=
  match v with
  | JUndefined | JNull => false
  | JBool b => b
  | JNum n => negb (PrimFloat.is_zero n || PrimFloat.is_nan n)
  | JStr s => negb (String.eqb s "")
  | JArr _ | JObj _ => true
  end.

(** Own property of an object literal or of a parsed JSON object. *)
Fixpoint lookup (k : string) (props : list (string * JsValue)) : JsValue :=
  match props with
  | [] => JUndefined
  | (k', v) :: rest => if String.eqb k k' then v else lookup k rest
  end.

Definition indexKey (i : nat) : string :=
  NilEmpty.string_of_uint (Nat.to_uint i).

(** ToString of the number [getHours()] returns. *)
Definition hoursToString (h : option nat) : string :=
  match h with
  | Some n => indexKey n
  | None => "NaN"
  end.

(** [Array.prototype.slice(start)] with one argument. *)
Definition Array_slice {A} (start : Z) (l : list A) : list A :=
  let len := Z.of_nat (length l) in
  let k := if (start <? 0)%Z then Z.max (len + start) 0 else Z.min start len in
  skipn (Z.to_nat k) l.

(** *** Strings are indexed by UTF-16 code unit *)

Definition continuationBits (c : ascii) : N := N.land (N_of_ascii c) 63.

(** The code points of a string, read from its UTF-8 bytes.  A byte that
    does not start a well-formed sequence counts as a code point of its
    own. *)
Fixpoint codePoints (s : string) : list N :=
  match s with
  | EmptyString => []
  | String c rest =>
      let b := N_of_ascii c in
      if (b <? 192)%N then b :: codePoints rest
      else if (b <? 224)%N then
        match rest with
        | String c1 r1 =>
            (N.land b 31 * 64 + continuationBits c1)%N :: codePoints r1
        | EmptyString => [b]
        end
      else if (b <? 240)%N then
        match rest with
        | String c1 (String c2 r2) =>
            ((N.land b 15 * 64 + continuationBits c1) * 64
             + continuationBits c2)%N :: codePoints r2
        | _ => b :: codePoints rest
        end
      else
        match rest with
        | String c1 (String c2 (String c3 r3)) =>
            (((N.land b 7 * 64 + continuationBits c1) * 64
              + continuationBits c2) * 64 + continuationBits c3)%N
            :: codePoints r3
        | _ => b :: codePoints rest
        end
  end.

(** A code point above the basic plane is a pair of surrogates. *)
Definition unitsOfCodePoint (cp : N) : list N :=
  if (cp <? 65536)%N then [cp]
  else [(55296 + (cp - 65536) / 1024)%N; (56320 + (cp - 65536) mod 1024)%N].

Definition codeUnits (s : string) : list N :=
  flat_map unitsOfCodePoint (codePoints s).

(** The string made of one code unit. *)
Definition stringOfUnit (u : N) : string :=
  if (u <? 128)%N then String (ascii_of_N u) EmptyString
  else if (u <? 2048)%N then
    String (ascii_of_N (192 + u / 64))
      (String (ascii_of_N (128 + u mod 64)) EmptyString)
  else
    String (ascii_of_N (224 + u / 4096))
      (String (ascii_of_N (128 + (u / 64) mod 64))
         (String (ascii_of_N (128 + u mod 64)) EmptyString)).

(** [s[i]] for a string: the code unit at [i], if there is one. *)
Definition charAt (s : string) (i : nat) : option string :=
  option_map stringOfUnit (nth_error (codeUnits s) i).

(** *** Conversion to a primitive value

    [new Date(v)] converts [v] to a primitive.  For a value parsed from
    JSON this throws exactly when a [toString] that is not callable is in
    the way: an object with an own property [toString] (inherited
    [valueOf] returns the object itself), or an array one of whose
    elements, at any depth, is such an object ([join] converts every
    element to a string). *)
Definition hasOwn (name : string) (props : list (string * JsValue)) : bool :=
  existsb (fun kv => String.eqb name (fst kv)) props.

Fixpoint cannotConvert (v : JsValue) : bool :=
  match v with
  | JObj props => hasOwn "toString" props
  | JArr elems => existsb cannotConvert elems
  | _ => false
  end.

Section WithHost.

Variable host : Host.

(** [o.name], for the property names the program reads ([data], [id],
    [hash], [size], [difficulty], [weight], [market_data], [current_price],
    [market_cap], [total_volume], [usd], [price_change_percentage_24h],
    [price_change_percentage_7d], [prices], [value],
    [value_classification]): none of them is a property of a boolean,
    number, string or array. *)
Definition getProp (o : JsValue) (name : string) : Exc JsValue :=
  match o with
  | JUndefined | JNull => raise (mkError (msgCannotRead host o name))
  | JObj props => ok_ (lookup name props)
  | JBool _ | JNum _ | JStr _ | JArr _ => ok_ JUndefined
  end.

(** [o[i]] for an index [i].  Indexing a string yields the code unit at
    [i] as a string, [undefined] past its end. *)
Definition getIndex (o : JsValue) (i : nat) : Exc JsValue :=
  match o with
  | JUndefined | JNull => raise (mkError (msgCannotRead host o (indexKey i)))
  | JArr elems => ok_ (nth i elems JUndefined)
  | JStr s =>
      ok_ (match charAt s i with
           | Some c => JStr c
           | None => JUndefined
           end)
  | JObj props => ok_ (lookup (indexKey i) props)
  | JBool _ | JNum _ => ok_ JUndefined
  end.

(** [new Date(v)], as far as the program can tell: it throws when [v]
    cannot be converted to a primitive, and otherwise yields a date whose
    local hour the host knows. *)
Definition new_Date (v : JsValue) : Exc JsValue :=
  if cannotConvert v then raise (mkError (msgCannotConvert host v))
  else ok_ v.

(** [arr.map(f)], where [callee] is the text of [arr.map] in the source. *)
Definition Array_map (callee : string) (arr : JsValue)
    (f : JsValue -> Exc JsValue) : Exc (list JsValue) :=
  match arr with
  | JArr elems => mapM f elems
  | JUndefined | JNull => raise (mkError (msgCannotRead host arr "map"))
  | JBool _ | JNum _ | JStr _ | JObj _ =>
      raise (mkError (msgNotAFunction host callee))
  end.

End WithHost.

(* ================================================================== *)
(** ** Component state *)
(* ================================================================== *)

(** The [useState] cells of [App], in declaration order. *)
Record AppState : Type := mkAppState {
  blockInfo : JsValue;
  blockHeight : JsValue;
  btcPrice : JsValue;
  btcMetrics : JsValue;
  priceData : JsValue;
  fearGreedIndex : JsValue;
  error : string
}.

(** [useState(null)] six times, then [useState('')]. *)
Definition initialState : AppState :=
  mkAppState JNull JNull JNull JNull JNull JNull "".

Inductive Setter : Type :=
| SetBlockInfo (v : JsValue)
| SetBlockHeight (v : JsValue)
| SetBtcPrice (v : JsValue)
| SetBtcMetrics (v : JsValue)
| SetPriceData (v : JsValue)
| SetFearGreedIndex (v : JsValue)
| SetError (msg : string).

Definition applySetter (u : Setter) (s : AppState) : AppState :=
  match u with
  | SetBlockInfo v =>
      mkAppState v (blockHeight s) (btcPrice s) (btcMetrics s) (priceData s)
        (fearGreedIndex s) (error s)
  | SetBlockHeight v =>
      mkAppState (blockInfo s) v (btcPrice s) (btcMetrics s) (priceData s)
        (fearGreedIndex s) (error s)
  | SetBtcPrice v =>
      mkAppState (blockInfo s) (blockHeight s) v (btcMetrics s) (priceData s)
        (fearGreedIndex s) (error s)
  | SetBtcMetrics v =>
      mkAppState (blockInfo s) (blockHeight s) (btcPrice s) v (priceData s)
        (fearGreedIndex s) (error s)
  | SetPriceData v =>
      mkAppState (blockInfo s) (blockHeight s) (btcPrice s) (btcMetrics s) v
        (fearGreedIndex s) (error s)
  | SetFearGreedIndex v =>
      mkAppState (blockInfo s) (blockHeight s) (btcPrice s) (btcMetrics s)
        (priceData s) v (error s)
  | SetError msg =>
      mkAppState (blockInfo s) (blockHeight s) (btcPrice s) (btcMetrics s)
        (priceData s) (fearGreedIndex s) msg
  end.

(** Setter calls applied in call order, the first one first. *)
Definition applyAll (us : list Setter) (s : AppState) : AppState :=
  fold_left (fun acc u => applySetter u acc) us s.

(* ================================================================== *)
(** ** Asynchronous functions *)
(* ================================================================== *)

(** What [fetch] resolves to: the status flag, and what [json()] will
    settle to (a rejection when the body is not JSON). *)
Record Response : Type := mkResponse {
  ok : bool;
  json : Exc JsValue
}.

(** The network during one cycle: how [fetch(url)] settles.  Every
    request is settled, by a response or by a rejection; a request that
    stays open for ever is outside the model. *)
Definition Network : Type := string -> Exc Response.

(** An [async] function body.  At an [Await..] node the function is
    suspended; the continuation receives the settlement of the awaited
    promise, a rejection being [inl]. *)
Inductive Async (A : Type) : Type :=
| Ret (a : A)
| Throw (e : Error)
| Call (u : Setter) (k : Async A)
| AwaitFetch (url : string) (k : Exc Response -> Async A)
| AwaitJson (r : Response) (k : Exc JsValue -> Async A).

Arguments Ret {A} a.
Arguments Throw {A} e.
Arguments Call {A} u k.
Arguments AwaitFetch {A} url k.
Arguments AwaitJson {A} r k.

Fixpoint bind {A B} (m : Async A) (f : A -> Async B) : Async B :=
  match m with
  | Ret a => f a
  | Throw e => Throw e
  | Call u k => Call u (bind k f)
  | AwaitFetch url k => AwaitFetch url (fun r => bind (k r) f)
  | AwaitJson r k => AwaitJson r (fun x => bind (k x) f)
  end.

(** [try { m } catch (err) { h err }]: a throw inside [m], also after one
    of its suspensions, enters [h]. *)
Fixpoint tryCatch {A} (m : Async A) (h : Error -> Async A) : Async A :=
  match m with
  | Ret a => Ret a
  | Throw e => h e
  | Call u k => Call u (tryCatch k h)
  | AwaitFetch url k => AwaitFetch url (fun r => tryCatch (k r) h)
  | AwaitJson r k => AwaitJson r (fun x => tryCatch (k x) h)
  end.

Declare Scope async_scope.
Delimit Scope async_scope with async.
Bind Scope async_scope with Async.

Notation "x <- m ;; k" := (bind m (fun x => k))
  (at level 61, m at next level, right associativity) : async_scope.
Notation "m ;; k" := (bind m (fun _ => k))
  (at level 61, right associativity) : async_scope.

(** An awaited promise that rejects throws at the [await]. *)
Definition settled {A} (r : Exc A) : Async A :=
  match r with
  | inl e => Throw e
  | inr a => Ret a
  end.

Definition await_fetch (url : string) : Async Response :=
  AwaitFetch url settled.

Definition await_json (r : Response) : Async JsValue :=
  AwaitJson r settled.

(** Evaluation of an expression inside the function. *)
Definition eval {A} (e : Exc A) : Async A := settled e.

Definition call (u : Setter) : Async unit := Call u (Ret tt).

Definition throw_new_Error {A} (msg : string) : Async A :=
  Throw (mkError msg).

Definition when_ (b : bool) (m : Async unit) : Async unit :=
  if b then m else Ret tt.

(* ================================================================== *)
(** ** The four source adapters *)
(* ================================================================== *)

Local Open Scope async_scope.

(** Every adapter ends in the same handler:
    [catch (err) { setError(err.message); }]. *)
Definition catch_setError (err : Error) : Async unit :=
  call (SetError (message err)).

Section Adapters.

Variable host : Host.

(** [o.n1.n2...], read left to right. *)
Definition getPath (o : JsValue) (names : list string) : Exc JsValue :=
  fold_left (fun acc name => ebind acc (fun v => getProp host v name))
    names (ok_ o).

Definition blockInfoUrl : string :=
  "https://api.blockchair.com/bitcoin/blocks?limit=1".
Definition btcMetricsUrl : string :=
  "https://api.coingecko.com/api/v3/coins/bitcoin?localization=false".
Definition priceDataUrl : string :=
  "https://api.coingecko.com/api/v3/coins/bitcoin/market_chart?vs_currency=usd&days=2".
Definition fearGreedUrl : string :=
  "https://api.alternative.me/fng/?limit=1".

(** The [try] block of [fetchLatestBlockInfo]. *)
Definition fetchLatestBlockInfo_try : Async unit :=
  response <- await_fetch blockInfoUrl ;;
  when_ (negb (ok response))
    (throw_new_Error "Failed to fetch latest block info") ;;
  data <- await_json response ;;
  latestBlock <- eval (ebind (getProp host data "data")
                         (fun d => getIndex host d 0)) ;;
  if truthy latestBlock then
    id <- eval (getProp host latestBlock "id") ;;
    call (SetBlockHeight id) ;;
    hash <- eval (getProp host latestBlock "hash") ;;
    size <- eval (getProp host latestBlock "size") ;;
    difficulty <- eval (getProp host latestBlock "difficulty") ;;
    weight <- eval (getProp host latestBlock "weight") ;;
    call (SetBlockInfo (JObj [("hash", hash); ("size", size);
                              ("difficulty", difficulty);
                              ("totalVolume", weight)]))
  else
    throw_new_Error "No latest block data found".

Definition fetchLatestBlockInfo : Async unit :=
  tryCatch fetchLatestBlockInfo_try catch_setError.

(** The [try] block of [fetchBtcMetrics]: [setBtcPrice] is called before
    the argument of [setBtcMetrics] is evaluated. *)
Definition fetchBtcMetrics_try : Async unit :=
  response <- await_fetch btcMetricsUrl ;;
  when_ (negb (ok response))
    (throw_new_Error "Failed to fetch Bitcoin metrics") ;;
  data <- await_json response ;;
  usd <- eval (getPath data ["market_data"; "current_price"; "usd"]) ;;
  call (SetBtcPrice usd) ;;
  marketCap <- eval (getPath data ["market_data"; "market_cap"; "usd"]) ;;
  volume24h <- eval (getPath data ["market_data"; "total_volume"; "usd"]) ;;
  priceChange24h <-
    eval (getPath data ["market_data"; "price_change_percentage_24h"]) ;;
  priceChange7d <-
    eval (getPath data ["market_data"; "price_change_percentage_7d"]) ;;
  call (SetBtcMetrics (JObj [("marketCap", marketCap);
                             ("volume24h", volume24h);
                             ("priceChange24h", priceChange24h);
                             ("priceChange7d", priceChange7d)])).

Definition fetchBtcMetrics : Async unit :=
  tryCatch fetchBtcMetrics_try catch_setError.

(** [pricePoint => { const date = new Date(pricePoint[0]);
                     return date.getHours() + ':00'; }] *)
Definition hourLabel (pricePoint : JsValue) : Exc JsValue :=
  ebind (getIndex host pricePoint 0) (fun t =>
  ebind (new_Date host t) (fun date =>
    ok_ (JStr (hoursToString (Date_getHours host date) ++ ":00")))).

(** [pricePoint => pricePoint[1]] *)
Definition pointPrice (pricePoint : JsValue) : Exc JsValue :=
  getIndex host pricePoint 1.

(** The object literal handed to [setPriceData], given its two arrays. *)
Definition lineChart (labels data : list JsValue) : JsValue :=
  JObj [("labels", JArr labels);
        ("datasets",
         JArr [JObj [("label", JStr "Bitcoin Price (USD)");
                     ("data", JArr data);
                     ("borderColor", JStr "rgba(75, 192, 192, 1)");
                     ("backgroundColor", JStr "rgba(75, 192, 192, 0.2)");
                     ("fill", JBool true)]])].

(** The [try] block of [fetchPriceData]. *)
Definition fetchPriceData_try : Async unit :=
  response <- await_fetch priceDataUrl ;;
  when_ (negb (ok response)) (throw_new_Error "Failed to fetch price data") ;;
  data <- await_json response ;;
  labels <- eval (ebind (getProp host data "prices") (fun prices =>
                    Array_map host "data.prices.map" prices hourLabel)) ;;
  prices <- eval (ebind (getProp host data "prices") (fun prices =>
                    Array_map host "data.prices.map" prices pointPrice)) ;;
  call (SetPriceData (lineChart (Array_slice (-24) labels)
                                (Array_slice (-24) prices))).

Definition fetchPriceData : Async unit :=
  tryCatch fetchPriceData_try catch_setError.

(** The [try] block of [fetchFearGreedIndex]. *)
Definition fetchFearGreedIndex_try : Async unit :=
  response <- await_fetch fearGreedUrl ;;
  when_ (negb (ok response))
    (throw_new_Error "Failed to fetch Fear and Greed Index") ;;
  data <- await_json response ;;
  indexData <- eval (ebind (getProp host data "data")
                       (fun d => getIndex host d 0)) ;;
  value <- eval (getProp host indexData "value") ;;
  classification <- eval (getProp host indexData "value_classification") ;;
  call (SetFearGreedIndex (JObj [("value", value);
                                 ("classification", classification)])).

Definition fetchFearGreedIndex : Async unit :=
  tryCatch fetchFearGreedIndex_try catch_setError.

End Adapters.

(** [getEmojiForClassification]: a [switch] compares with [===], so only a
    string equal to a case label selects that case. *)
Definition getEmojiForClassification (classification : JsValue) : string :=
  match classification with
  | JStr s =>
      if String.eqb s "Extreme Fear" then "🙀"
      else if String.eqb s "Fear" then "😨"
      else if String.eqb s "Neutral" then "😐"
      else if String.eqb s "Greed" then "🤑"
      else if String.eqb s "Extreme Greed" then "😈"
      else ""
  | _ => ""
  end.

(* ================================================================== *)
(** ** Running asynchronous functions *)
(* ================================================================== *)

(** Run a function until it suspends at an [await] or finishes. *)
Fixpoint runSync {A} (m : Async A) (s : AppState) : Async A * AppState :=
  match m with
  | Call u k => runSync k (applySetter u s)
  | _ => (m, s)
  end.

(** The host settles the promise a suspended function awaits. *)
Definition resume {A} (net : Network) (m : Async A) : Async A :=
  match m with
  | AwaitFetch url k => k (net url)
  | AwaitJson r k => k (json r)
  | _ => m
  end.

(** One turn of the event loop for one function. *)
Definition step {A} (net : Network) (c : Async A * AppState)
    : Async A * AppState :=
  runSync (resume net (fst c)) (snd c).

Definition isSettled {A} (m : Async A) : bool :=
  match m with
  | Ret _ | Throw _ => true
  | _ => false
  end.

Definition isFulfilled {A} (m : Async A) : bool :=
  match m with
  | Ret _ => true
  | _ => false
  end.

Definition rejection {A} (m : Async A) : option Error :=
  match m with
  | Throw e => Some e
  | _ => None
  end.

(** The request a suspended function waits for. *)
Definition pendingFetch {A} (m : Async A) : option string :=
  match m with
  | AwaitFetch url _ => Some url
  | _ => None
  end.

(** A function run alone to its end: how its promise settles, and the
    setter calls it makes, in order. *)
Fixpoint result {A} (net : Network) (m : Async A) : Exc A :=
  match m with
  | Ret a => inr a
  | Throw e => inl e
  | Call _ k => result net k
  | AwaitFetch url k => result net (k (net url))
  | AwaitJson r k => result net (k (json r))
  end.

Fixpoint trace {A} (net : Network) (m : Async A) : list Setter :=
  match m with
  | Ret _ | Throw _ => []
  | Call u k => u :: trace net k
  | AwaitFetch url k => trace net (k (net url))
  | AwaitJson r k => trace net (k (json r))
  end.

Definition exec {A} (net : Network) (m : Async A) (s : AppState)
    : Exc A * AppState :=
  (result net m, applyAll (trace net m) s).

(** Number of suspensions left on the way to the end. *)
Fixpoint stepsLeft {A} (net : Network) (m : Async A) : nat :=
  match m with
  | Ret _ | Throw _ => 0
  | Call _ k => stepsLeft net k
  | AwaitFetch url k => S (stepsLeft net (k (net url)))
  | AwaitJson r k => S (stepsLeft net (k (json r)))
  end.

(** The function after its synchronous prefix, and the calls of that
    prefix. *)
Fixpoint afterCalls {A} (m : Async A) : Async A :=
  match m with
  | Call _ k => afterCalls k
  | _ => m
  end.

Fixpoint callsUntilSuspended {A} (m : Async A) : list Setter :=
  match m with
  | Call u k => u :: callsUntilSuspended k
  | _ => []
  end.

(* ================================================================== *)
(** ** [fetchLatestData], sequential variant *)
(* ================================================================== *)

(** The adapters the aggregator runs, in the order both variants name
    them. *)
Inductive Adapter : Type := BlockInfo | BtcMetrics | PriceData | FearGreed.

Definition allAdapters : list Adapter :=
  [BlockInfo; BtcMetrics; PriceData; FearGreed].

Definition adapterFn (host : Host) (a : Adapter) : Async unit :=
  match a with
  | BlockInfo => fetchLatestBlockInfo host
  | BtcMetrics => fetchBtcMetrics host
  | PriceData => fetchPriceData host
  | FearGreed => fetchFearGreedIndex host
  end.

Definition adapterTry (host : Host) (a : Adapter) : Async unit :=
  match a with
  | BlockInfo => fetchLatestBlockInfo_try host
  | BtcMetrics => fetchBtcMetrics_try host
  | PriceData => fetchPriceData_try host
  | FearGreed => fetchFearGreedIndex_try host
  end.

Definition adapterUrl (a : Adapter) : string :=
  match a with
  | BlockInfo => blockInfoUrl
  | BtcMetrics => btcMetricsUrl
  | PriceData => priceDataUrl
  | FearGreed => fearGreedUrl
  end.

Module Sequential.

(** The variant that awaits one adapter after the other:
[[
  try { await fetchLatestBlockInfo(); await fetchBtcMetrics();
        await fetchPriceData(); await fetchFearGreedIndex(); }
  catch (err) { setError(err.message); }
]]
    Awaiting the promise of a called [async] function continues with that
    function's body and rethrows its rejection. *)
Definition fetchLatestData (host : Host) : Async unit :=
  tryCatch
    (fetchLatestBlockInfo host ;;
     fetchBtcMetrics host ;;
     fetchPriceData host ;;
     fetchFearGreedIndex host)
    catch_setError.

(** One cycle: the call runs to its first [await]; every later turn
    settles the one promise it waits for. *)
Definition start (host : Host) (s : AppState) : Async unit * AppState :=
  runSync (fetchLatestData host) s.

Definition turns (net : Network) (n : nat) (c : Async unit * AppState)
    : Async unit * AppState :=
  Nat.iter n (step net) c.

End Sequential.

(* ================================================================== *)
(** ** [fetchLatestData], [Promise.all] variant *)
(* ================================================================== *)

Inductive Settlement : Type :=
| Pending
| Fulfilled
| Rejected (e : Error).

Module App.

(** The array handed to [Promise.all]. *)
Definition fetchLatestData (host : Host) : list (Async unit) :=
  [fetchLatestBlockInfo host; fetchBtcMetrics host;
   fetchPriceData host; fetchFearGreedIndex host].

Definition slot (a : Adapter) : nat :=
  match a with
  | BlockInfo => 0
  | BtcMetrics => 1
  | PriceData => 2
  | FearGreed => 3
  end.

(** A cycle in flight: the four promises, the promise of
    [await Promise.all(..)] (which is the promise of [fetchLatestData]),
    and the component state. *)
Record Cycle : Type := mkCycle {
  promises : list (Async unit);
  joined : Settlement;
  state : AppState
}.

(** Evaluating the array calls the functions left to right; each runs to
    its first [await]. *)
Fixpoint callAll (fs : list (Async unit)) (s : AppState)
    : list (Async unit) * AppState :=
  match fs with
  | [] => ([], s)
  | f :: rest =>
      let (m, s1) := runSync f s in
      let (ms, s2) := callAll rest s1 in
      (m :: ms, s2)
  end.

Fixpoint replaceNth {A} (i : nat) (x : A) (l : list A) : list A :=
  match l, i with
  | [], _ => []
  | _ :: rest, 0 => x :: rest
  | y :: rest, S j => y :: replaceNth j x rest
  end.

(** [Promise.all]: rejected by the first promise that rejects, fulfilled
    once all are fulfilled; once settled it stays as it is. *)
Definition join (before : Settlement) (changed : Async unit)
    (all : list (Async unit)) : Settlement :=
  match before with
  | Pending =>
      match rejection changed with
      | Some e => Rejected e
      | None => if forallb isFulfilled all then Fulfilled else Pending
      end
  | _ => before
  end.

Fixpoint firstRejection (ps : list (Async unit)) : option Error :=
  match ps with
  | [] => None
  | p :: rest =>
      match rejection p with
      | Some e => Some e
      | None => firstRejection rest
      end
  end.

Definition start (host : Host) (s : AppState) : Cycle :=
  let (ps, s') := callAll (fetchLatestData host) s in
  let j := match firstRejection ps with
           | Some e => Rejected e
           | None => if forallb isFulfilled ps then Fulfilled else Pending
           end in
  mkCycle ps j s'.

(** The event loop resumes the function in [slot i]; nothing happens when
    that slot has settled already. *)
Definition resumeAt (net : Network) (c : Cycle) (i : nat) : Cycle :=
  match nth_error (promises c) i with
  | Some m =>
      if isSettled m then c
      else
        let (m', s') := runSync (resume net m) (state c) in
        let ps := replaceNth i m' (promises c) in
        mkCycle ps (join (joined c) m' ps) s'
  | None => c
  end.

(** A schedule lists the slots in the order the network answers. *)
Definition run (net : Network) (schedule : list nat) (c : Cycle) : Cycle :=
  fold_left (resumeAt net) schedule c.

End App.

(* ================================================================== *)
(** ** Which cells belong to which adapter *)
(* ================================================================== *)

(** The part of the state an adapter produces. *)
Definition snapshot (a : Adapter) (s : AppState) : list JsValue :=
  match a with
  | BlockInfo => [blockInfo s; blockHeight s]
  | BtcMetrics => [btcPrice s; btcMetrics s]
  | PriceData => [priceData s]
  | FearGreed => [fearGreedIndex s]
  end.

Definition owner (u : Setter) : option Adapter :=
  match u with
  | SetBlockInfo _ | SetBlockHeight _ => Some BlockInfo
  | SetBtcPrice _ | SetBtcMetrics _ => Some BtcMetrics
  | SetPriceData _ => Some PriceData
  | SetFearGreedIndex _ => Some FearGreed
  | SetError _ => None
  end.

Definition Adapter_eqb (a b : Adapter) : bool :=
  match a, b with
  | BlockInfo, BlockInfo | BtcMetrics, BtcMetrics
  | PriceData, PriceData | FearGreed, FearGreed => true
  | _, _ => false
  end.

(** The adapter's [try] block threw: its [catch] ran. *)
Definition failure (host : Host) (net : Network) (a : Adapter)
    : option Error :=
  match result net (adapterTry host a) with
  | inl e => Some e
  | inr _ => None
  end.

(** The last failure among the adapters listed, in list order. *)
Fixpoint lastFailure (host : Host) (net : Network) (order : list Adapter)
    : option Error :=
  match order with
  | [] => None
  | a :: rest =>
      match lastFailure host net rest with
      | Some e => Some e
      | None => failure host net a
      end
  end.

Definition adapterAt (i : nat) : option Adapter :=
  nth_error allAdapters i.

Module Settle.

(** The adapters in the order their promises settle under a schedule. *)
Fixpoint order (net : Network) (schedule : list nat) (c : App.Cycle)
    : list Adapter :=
  match schedule with
  | [] => []
  | i :: rest =>
      let c' := App.resumeAt net c i in
      let now :=
        match nth_error (App.promises c) i, nth_error (App.promises c') i,
              adapterAt i with
        | Some m, Some m', Some a =>
            if negb (isSettled m) && isSettled m' then [a] else []
        | _, _, _ => []
        end in
      now ++ order net rest c'
  end.

End Settle.

(** Every slot got the two answers an adapter can wait for. *)
Definition answersAll (schedule : list nat) : bool :=
  forallb (fun i => (2 <=? count_occ Nat.eq_dec schedule i)%nat) [0; 1; 2; 3].

(* ================================================================== *)
(** ** The market section of the page *)
(* ================================================================== *)

(** The JSX guard
[[
  {btcPrice !== null ? ( ... {btcMetrics.marketCap?.toLocaleString()} ...
                             {btcMetrics.volume24h?.toLocaleString()}
                             {btcMetrics.priceChange24h} {btcMetrics.priceChange7d} )
                     : <p>Loading Bitcoin market data...</p>}
]]
    reads four properties of [btcMetrics] whenever [btcPrice] is not
    [null].  [renderMarketData] is these reads and nothing more: its
    result is the [TypeError] of the first read that throws, if one does.
    What happens to the values read ([toLocaleString], React's rendering
    of children) is not part of it. *)
Definition strictNotNull (v : JsValue) : bool :=
  match v with
  | JNull => false
  | _ => true
  end.

Definition renderMarketData (host : Host) (s : AppState) : Exc unit :=
  if strictNotNull (btcPrice s) then
    ebind (getProp host (btcMetrics s) "marketCap") (fun _ =>
    ebind (getProp host (btcMetrics s) "volume24h") (fun _ =>
    ebind (getProp host (btcMetrics s) "priceChange24h") (fun _ =>
    ebind (getProp host (btcMetrics s) "priceChange7d") (fun _ =>
    ok_ tt))))
  else ok_ tt.

(* ================================================================== *)
(** ** The refresh timer *)
(* ================================================================== *)

Module Timer.

Local Open Scope N_scope.

(** A repeating timer of the host: its id, its period and the time it
    fires next.  The only function the component ever hands to
    [setInterval] is [fetchLatestData]. *)
Record Interval : Type := mkInterval {
  intervalId : N;
  delay : N;
  due : N
}.

(** The host's clock and timers, and the times (in milliseconds) at which
    [fetchLatestData] has been invoked, oldest first. *)
Record Window : Type := mkWindow {
  now : N;
  nextId : N;
  intervals : list Interval;
  invoked : list N
}.

(** A page that has just loaded at time [t0]. *)
Definition freshWindow (t0 : N) : Window := mkWindow t0 1 [] [].

(** A call of [fetchLatestData]: a cycle starts now. *)
Definition fetchLatestData (w : Window) : Window :=
  mkWindow (now w) (nextId w) (intervals w) (invoked w ++ [now w]).

Definition setInterval (ms : N) (w : Window) : N * Window :=
  (nextId w,
   mkWindow (now w) (nextId w + 1)
     (intervals w ++ [mkInterval (nextId w) ms (now w + ms)]) (invoked w)).

Definition clearInterval (id : N) (w : Window) : Window :=
  mkWindow (now w) (nextId w)
    (filter (fun t => negb (intervalId t =? id)) (intervals w)) (invoked w).

(** One millisecond passes; every timer that is due fires and is set for
    its next period. *)
Definition fire (t : N) (acc : list Interval * list N) (i : Interval)
    : list Interval * list N :=
  if due i =? t
  then (fst acc ++ [mkInterval (intervalId i) (delay i) (t + delay i)],
        snd acc ++ [t])
  else (fst acc ++ [i], snd acc).

Definition tick (w : Window) : Window :=
  let t := now w + 1 in
  let r := fold_left (fire t) (intervals w) ([], invoked w) in
  mkWindow t (nextId w) (fst r) (snd r).

Definition elapse (ms : N) (w : Window) : Window := N.iter ms tick w.

Definition refreshIntervalMs : N := 60000.

(** The effect:
[[
  fetchLatestData();
  const intervalId = setInterval(fetchLatestData, 60000);
  return () => clearInterval(intervalId);
]]
    It yields the window after mounting and the cleanup function. *)
Definition useEffect (w : Window) : Window * (Window -> Window) :=
  let w1 := fetchLatestData w in
  let (intervalId, w2) := setInterval refreshIntervalMs w1 in
  (w2, clearInterval intervalId).

(** The times the timer has fired after [ms] milliseconds, when it was
    started at [t0]. *)
Definition firings (t0 ms : N) : list N :=
  map (fun k => t0 + refreshIntervalMs * N.of_nat k)
    (seq 1 (N.to_nat (ms / refreshIntervalMs))).

End Timer.

(* ================================================================== *)
(** ** Shapes of asynchronous functions *)
(* ================================================================== *)

(** Every setter call the function can make, whatever the network
    answers, satisfies [P]. *)
Fixpoint callsIn {A} (P : Setter -> Prop) (m : Async A) : Prop :=
  match m with
  | Ret _ | Throw _ => True
  | Call u k => P u /\ callsIn P k
  | AwaitFetch _ k => forall r, callsIn P (k r)
  | AwaitJson _ k => forall x, callsIn P (k x)
  end.

(** The function suspends at most [n] times, whatever the network
    answers. *)
Fixpoint awaitsAtMost {A} (m : Async A) (n : nat) {struct m} : Prop :=
  match m with
  | Ret _ | Throw _ => True
  | Call _ k => awaitsAtMost k n
  | AwaitFetch _ k =>
      match n with
      | 0 => False
      | S n' => forall r, awaitsAtMost (k r) n'
      end
  | AwaitJson _ k =>
      match n with
      | 0 => False
      | S n' => forall x, awaitsAtMost (k x) n'
      end
  end.

Definition suspended {A} (m : Async A) : bool :=
  match m with
  | AwaitFetch _ _ | AwaitJson _ _ => true
  | _ => false
  end.

(** The promise in an adapter's slot. *)
Definition task (c : App.Cycle) (a : Adapter) : Async unit :=
  nth (App.slot a) (App.promises c) (Ret tt).

(** The setters an adapter may call: those of its own cells, and
    [setError]. *)
Definition allowed (a : Adapter) (u : Setter) : Prop :=
  owner u = Some a \/ owner u = None.

(** What the promise in an adapter's slot can be while a cycle runs: it
    has settled, fulfilled, or it is the adapter's [try] block arrived at
    a suspension, under the adapter's [catch]. *)
Definition Guarded (host : Host) (net : Network) (a : Adapter)
    (m : Async unit) : Prop :=
  m = Ret tt \/
  exists b, m = tryCatch b catch_setError /\
            suspended b = true /\
            callsIn (fun u => owner u = Some a) b /\
            result net b = result net (adapterTry host a).

(** The invariant of a cycle started in state [s0]. *)
Record CycleInv (host : Host) (net : Network) (s0 : AppState)
    (c : App.Cycle) : Prop := mkCycleInv {
  inv_length : length (App.promises c) = 4;
  inv_guarded : forall a, Guarded host net a (task c a);
  inv_snapshot : forall a,
      snapshot a (applyAll (trace net (task c a)) (App.state c)) =
      snapshot a (applyAll (trace net (adapterFn host a)) s0);
  inv_joined :
      App.joined c =
      if forallb isFulfilled (App.promises c) then Fulfilled else Pending
}.

(* ================================================================== *)
(** ** Payloads the claims speak about *)
(* ================================================================== *)

(** The float of an integer from 0 to [2^53]. *)
Definition num (z : Z) : float := PrimFloat.of_uint63 (Uint63.of_Z z).

(** A raw point of the market chart: [[timestamp, price]]. *)
Definition rawPoint (p : float * float) : JsValue :=
  JArr [JNum (fst p); JNum (snd p)].

(** The body of the market-chart endpoint for a raw series. *)
Definition marketChartJson (points : list (float * float)) : JsValue :=
  JObj [("prices", JArr (map rawPoint points))].

(** The label the price adapter derives from a timestamp: the local hour
    followed by [":00"]. *)
Definition localHourLabel (host : Host) (timestamp : float) : string :=
  hoursToString (Date_getHours host (JNum timestamp)) ++ ":00".

Definition knownClassifications : list string :=
  ["Extreme Fear"; "Fear"; "Neutral"; "Greed"; "Extreme Greed"].

(** An integer from 0 to 100. *)
Definition isIntegerPercent (v : JsValue) : bool :=
  match v with
  | JNum n =>
      existsb (fun k => PrimFloat.eqb n (num (Z.of_nat k))) (seq 0 101)
  | _ => false
  end.

Definition isKnownClassification (v : JsValue) : bool :=
  match v with
  | JStr s => existsb (String.eqb s) knownClassifications
  | _ => false
  end.

(* ================================================================== *)
(** ** Sample hosts, payloads and networks *)
(* ================================================================== *)

Module Samples.

(** The integer part of a finite float. *)
Definition floatToZ (n : float) : option Z :=
  match Prim2SF n with
  | S754_zero _ => Some 0%Z
  | S754_finite sign m e =>
      let v := if (0 <=? e)%Z then (Zpos m * 2 ^ e)%Z
               else (Zpos m / 2 ^ (- e))%Z in
      Some (if sign then (- v)%Z else v)
  | _ => None
  end.

(** The hour of a time value on a host whose local time is UTC.  It
    covers numeric time values, which is all the samples use. *)
Definition utcHours (v : JsValue) : option nat :=
  match v with
  | JNum n =>
      match floatToZ n with
      | Some ms =>
          if (Z.abs ms <=? 8640000000000000)%Z
          then Some (Z.to_nat ((ms / 3600000) mod 24)%Z)
          else None
      | None => None
      end
  | _ => None
  end.

Definition valueName (v : JsValue) : string :=
  match v with
  | JNull => "null"
  | _ => "undefined"
  end.

(** An engine that words its type errors the way V8 does. *)
Definition host : Host :=
  mkHost utcHours
    (fun v p => ("Cannot read properties of " ++ valueName v ++
                 " (reading '" ++ p ++ "')")%string)
    (fun callee => (callee ++ " is not a function")%string)
    (fun _ => "Cannot convert object to primitive value").

Definition success (body : JsValue) : Exc Response :=
  inr (mkResponse true (inr body)).

Definition httpError : Exc Response :=
  inr (mkResponse false (inr (JObj []))).

(** A network that answers the listed URLs and fails on every other. *)
Fixpoint respond (answers : list (string * Exc Response)) : Network :=
  fun url =>
    match answers with
    | [] => inl (mkError "Failed to fetch")
    | (u, r) :: rest => if String.eqb url u then r else respond rest url
    end.

Definition blockJson : JsValue :=
  JObj [("data", JArr [JObj [("id", JNum 820000);
                             ("hash", JStr "00000ab");
                             ("size", JNum 1400000);
                             ("difficulty", JNum 60000000000000);
                             ("weight", JNum 3990000)]])].

Definition marketJson : JsValue :=
  JObj [("market_data",
         JObj [("current_price", JObj [("usd", JNum 50000)]);
               ("market_cap", JObj [("usd", JNum 980000000000)]);
               ("total_volume", JObj [("usd", JNum 25000000000)]);
               ("price_change_percentage_24h", JNum 1.5);
               ("price_change_percentage_7d", JNum (-2.25))])].

(** The market payload without [market_data.total_volume]. *)
Definition marketJsonNoVolume : JsValue :=
  JObj [("market_data",
         JObj [("current_price", JObj [("usd", JNum 50000)]);
               ("market_cap", JObj [("usd", JNum 980000000000)]);
               ("price_change_percentage_24h", JNum 1.5);
               ("price_change_percentage_7d", JNum (-2.25))])].

(** [n] hourly points from 2023-11-14T22:00Z on, priced 43000, 43001, ... *)
Definition series (n : nat) : list (float * float) :=
  map (fun i => (num (1699999200000 + 3600000 * Z.of_nat i),
                 num (43000 + Z.of_nat i)))
    (seq 0 n).

Definition fngJson : JsValue :=
  JObj [("data", JArr [JObj [("value", JNum 45);
                             ("value_classification", JStr "Fear")]])].

(** A sentiment payload outside the documented ranges. *)
Definition fngJsonOdd : JsValue :=
  JObj [("data", JArr [JObj [("value", JNum 150);
                             ("value_classification", JStr "Euphoria")]])].

Definition allUp : Network :=
  respond [(blockInfoUrl, success blockJson);
           (btcMetricsUrl, success marketJson);
           (priceDataUrl, success (marketChartJson (series 30)));
           (fearGreedUrl, success fngJson)].

(** The block endpoint answers with an error status. *)
Definition blockDown : Network :=
  respond [(blockInfoUrl, httpError);
           (btcMetricsUrl, success marketJson);
           (priceDataUrl, success (marketChartJson (series 30)));
           (fearGreedUrl, success fngJson)].

(** The block endpoint has an error status and the price endpoint is
    unreachable. *)
Definition twoDown : Network :=
  respond [(blockInfoUrl, httpError);
           (btcMetricsUrl, success marketJson);
           (fearGreedUrl, success fngJson)].

Definition noVolume : Network :=
  respond [(blockInfoUrl, success blockJson);
           (btcMetricsUrl, success marketJsonNoVolume);
           (priceDataUrl, success (marketChartJson (series 30)));
           (fearGreedUrl, success fngJson)].

Definition oddSentiment : Network :=
  respond [(blockInfoUrl, success blockJson);
           (btcMetricsUrl, success marketJson);
           (priceDataUrl, success (marketChartJson (series 30)));
           (fearGreedUrl, success fngJsonOdd)].

(** Responses arrive in the order sentiment, prices, market, block; bodies
    in the order block, market, prices, sentiment. *)
Definition schedule : list nat := [3; 2; 1; 0; 0; 1; 2; 3].

(** A market payload with the three price objects and nothing else; its
    [total_volume] has no [usd]. *)
Definition marketJsonBare : JsValue :=
  JObj [("market_data",
         JObj [("current_price", JObj [("usd", JNum 50000)]);
               ("market_cap", JObj [("usd", JNum 980000000000)]);
               ("total_volume", JObj [])])].

(** Only the market endpoint answers. *)
Definition bareMarket : Network :=
  respond [(btcMetricsUrl, success marketJsonBare)].

(** A chart payload whose second point is [null]. *)
Definition chartJsonGap : JsValue :=
  JObj [("prices",
         JArr [JArr [JNum 1699999200000; JNum 43000]; JNull;
               JArr [JNum 1700006400000; JNum 43002]])].

(** Only the chart endpoint answers, with the gap. *)
Definition gapInChart : Network :=
  respond [(priceDataUrl, success chartJsonGap)].

(** A chart payload whose second point has for timestamp an object with a
    [toString] that is not a function. *)
Definition chartJsonOddStamp : JsValue :=
  JObj [("prices",
         JArr [JArr [JNum 1699999200000; JNum 43000];
               JArr [JObj [("toString", JNum 1)]; JNum 43001]])].

(** Only the chart endpoint answers, with the odd timestamp. *)
Definition oddStampInChart : Network :=
  respond [(priceDataUrl, success chartJsonOddStamp)].

(** Only the chart endpoint answers, with three points. *)
Definition shortChart : Network :=
  respond [(priceDataUrl, success (marketChartJson (series 3)))].

(** A sentiment payload whose [data] is empty. *)
Definition fngJsonEmpty : JsValue := JObj [("data", JArr [])].

(** Only the sentiment endpoint answers, with no entry. *)
Definition emptySentiment : Network :=
  respond [(fearGreedUrl, success fngJsonEmpty)].

End Samples.

(** One answer to a promise, seen from the promise alone: the function it
    becomes when its awaited promise is settled. *)
Definition advance {A} (net : Network) (m : Async A) : Async A :=
  afterCalls (resume net m).

(* ================================================================== *)
(** ** Notions for the further properties *)
(* ================================================================== *)

(** The message an adapter throws when the status is not a success. *)
Definition notOkMessage (a : Adapter) : string :=
  match a with
  | BlockInfo => "Failed to fetch latest block info"
  | BtcMetrics => "Failed to fetch Bitcoin metrics"
  | PriceData => "Failed to fetch price data"
  | FearGreed => "Failed to fetch Fear and Greed Index"
  end.

(** A failure that occurs before a payload is at hand: the fetch is
    rejected, the status is not a success, or the body is not JSON. *)
Definition beforePayload (a : Adapter) (r : Exc Response) : option Error :=
  match r with
  | inl e => Some e
  | inr resp =>
      if ok resp then
        match json resp with
        | inl e => Some e
        | inr _ => None
        end
      else Some (mkError (notOkMessage a))
  end.

(** [undefined] or [null]. *)
Definition nullish (v : JsValue) : bool :=
  match v with
  | JUndefined | JNull => true
  | _ => false
  end.

Definition isArray (v : JsValue) : bool :=
  match v with
  | JArr _ => true
  | _ => false
  end.

(** The cell holds an object. *)
Definition populated (v : JsValue) : bool :=
  match v with
  | JObj _ => true
  | _ => false
  end.

(** The state with its [error] cell replaced. *)
Definition withError (msg : string) (s : AppState) : AppState :=
  applySetter (SetError msg) s.

(** What a cell holds after a list of setter calls, given which calls
    write the cell: the value of the last such call, or the value before. *)
Definition lastWrite {X} (writes : Setter -> option X) (calls : list Setter)
    (before : X) : X :=
  fold_left (fun d u => match writes u with Some v => v | None => d end)
    calls before.

(** The requests a function issues on its way to the end, in order. *)
Fixpoint requests {A} (net : Network) (m : Async A) : list string :=
  match m with
  | Ret _ | Throw _ => []
  | Call _ k => requests net k
  | AwaitFetch url k => url :: requests net (k (net url))
  | AwaitJson r k => requests net (k (json r))
  end.

(** The number of bodies it reads with [response.json()]. *)
Fixpoint bodiesRead {A} (net : Network) (m : Async A) : nat :=
  match m with
  | Ret _ | Throw _ => 0
  | Call _ k => bodiesRead net k
  | AwaitFetch url k => bodiesRead net (k (net url))
  | AwaitJson r k => S (bodiesRead net (k (json r)))
  end.

(** The [try] block of the sequential [fetchLatestData], without its
    [catch]. *)
Definition sequentialAwaits (host : Host) : Async unit :=
  (fetchLatestBlockInfo host ;;
   fetchBtcMetrics host ;;
   fetchPriceData host ;;
   fetchFearGreedIndex host)%async.

(** Every timer of the window has an id the window has handed out. *)
Definition timersKnown (w : Timer.Window) : bool :=
  forallb (fun t => (Timer.intervalId t <? Timer.nextId w)%N)
    (Timer.intervals w).

(** The setters of the four structured cells are given objects. *)
Definition writesObject (u : Setter) : Prop :=
  match u with
  | SetBlockInfo v | SetBtcMetrics v | SetPriceData v
  | SetFearGreedIndex v => populated v = true
  | _ => True
  end.

(** A property of a value that is not [undefined] or [null], as the
    adapters read it: an own property of an object, [undefined] on
    anything else. *)
Definition ownProp (v : JsValue) (name : string) : JsValue :=
  match v with
  | JObj props => lookup name props
  | _ => JUndefined
  end.

(** What is wrong with a timestamp, if anything: it cannot be converted
    to a primitive value, so that [new Date] throws. *)
Definition timestampProblem (host : Host) (t : JsValue) : option Error :=
  if cannotConvert t then Some (mkError (msgCannotConvert host t)) else None.

(** What is wrong with a point of the series, if anything: it is
    [undefined] or [null], so that reading its index 0 throws, or its
    timestamp (element 0 of an array, property ["0"] of an object) cannot
    be converted.  A point that is a boolean, a number or a string has a
    timestamp that is [undefined] or a string, which can be converted. *)
Definition pointProblem (host : Host) (p : JsValue) : option Error :=
  match p with
  | JUndefined | JNull => Some (mkError (msgCannotRead host p "0"))
  | JArr elems => timestampProblem host (nth 0 elems JUndefined)
  | JObj props => timestampProblem host (lookup "0" props)
  | JBool _ | JNum _ | JStr _ => None
  end.

(** The problem of the first point that has one. *)
Fixpoint firstProblem (host : Host) (points : list JsValue) : option Error :=
  match points with
  | [] => None
  | p :: rest =>
      match pointProblem host p with
      | Some e => Some e
      | None => firstProblem host rest
      end
  end.

(** What is wrong with the value of [data.prices], if anything: it is not
    an array, or one of its points has a problem. *)
Definition pricesProblem (host : Host) (prices : JsValue) : option Error :=
  match prices with
  | JArr points => firstProblem host points
  | JUndefined | JNull => Some (mkError (msgCannotRead host prices "map"))
  | _ => Some (mkError (msgNotAFunction host "data.prices.map"))
  end.

(** The four cells that hold a structured snapshot. *)
Definition structuredCells (s : AppState) : list JsValue :=
  [blockInfo s; btcMetrics s; priceData s; fearGreedIndex s].

(** The number of adapters that fail under a network. *)
Definition failureCount (host : Host) (net : Network) : nat :=
  length (filter (fun a => match failure host net a with
                           | Some _ => true
                           | None => false
                           end) allAdapters).

(** The answers an adapter needs before it settles. *)
Definition answersNeeded (host : Host) (net : Network) (a : Adapter) : nat :=
  stepsLeft net (adapterFn host a).

(* ================================================================== *)
(** * Properties *)
(* ================================================================== *)

(** ** Facts about running asynchronous functions *)

Section AsyncFacts.

Variable net : Network.

Lemma applyAll_app (us vs : list Setter) (s : AppState) :
  applyAll (us ++ vs) s = applyAll vs (applyAll us s).
Proof. unfold applyAll. apply fold_left_app. Qed.

Lemma runSync_spec {A} (m : Async A) (s : AppState) :
  runSync m s = (afterCalls m, applyAll (callsUntilSuspended m) s).
Proof.
  revert s. induction m as [a | e | u k IH | url k _ | r k _]; intros s;
    simpl; try reflexivity.
  apply IH.
Qed.

Lemma trace_afterCalls {A} (m : Async A) :
  trace net m = callsUntilSuspended m ++ trace net (afterCalls m).
Proof.
  induction m as [a | e | u k IH | url k _ | r k _]; simpl; try reflexivity.
  now rewrite IH.
Qed.

Lemma result_afterCalls {A} (m : Async A) :
  result net (afterCalls m) = result net m.
Proof. induction m; simpl; auto. Qed.

Lemma trace_resume {A} (m : Async A) :
  trace net (resume net m) = trace net m.
Proof. destruct m; reflexivity. Qed.

Lemma result_resume {A} (m : Async A) :
  result net (resume net m) = result net m.
Proof. destruct m; reflexivity. Qed.

Lemma stepsLeft_afterCalls {A} (m : Async A) :
  stepsLeft net (afterCalls m) = stepsLeft net m.
Proof. induction m; simpl; auto. Qed.

Lemma afterCalls_not_Call {A} (m : Async A) u k :
  afterCalls m <> Call u k.
Proof. induction m; simpl; auto; discriminate. Qed.

Lemma result_bind {A B} (m : Async A) (f : A -> Async B) :
  result net (bind m f) =
  match result net m with
  | inl e => inl e
  | inr a => result net (f a)
  end.
Proof. induction m; simpl; auto. Qed.

Lemma trace_bind {A B} (m : Async A) (f : A -> Async B) :
  trace net (bind m f) =
  trace net m ++ match result net m with
                 | inl _ => []
                 | inr a => trace net (f a)
                 end.
Proof.
  induction m as [a | e | u k IH | url k IH | r k IH]; simpl; auto.
  now rewrite IH.
Qed.

Lemma result_tryCatch {A} (m : Async A) (h : Error -> Async A) :
  result net (tryCatch m h) =
  match result net m with
  | inl e => result net (h e)
  | inr a => inr a
  end.
Proof. induction m; simpl; auto. Qed.

Lemma trace_tryCatch {A} (m : Async A) (h : Error -> Async A) :
  trace net (tryCatch m h) =
  trace net m ++ match result net m with
                 | inl e => trace net (h e)
                 | inr _ => []
                 end.
Proof.
  induction m as [a | e | u k IH | url k IH | r k IH]; simpl; auto.
  now rewrite IH.
Qed.

(** A step keeps what the function will do in the end. *)
Lemma step_exec {A} (c : Async A * AppState) :
  exec net (fst (step net c)) (snd (step net c)) = exec net (fst c) (snd c).
Proof.
  destruct c as [m s]. unfold step, exec. simpl fst. simpl snd.
  rewrite runSync_spec. simpl fst. simpl snd.
  rewrite result_afterCalls, result_resume.
  rewrite <- applyAll_app, <- trace_afterCalls, trace_resume.
  reflexivity.
Qed.

(** Enough turns bring a function to its end. *)
Lemma turns_reach_end {A} (n : nat) : forall (m : Async A) (s : AppState),
  stepsLeft net m <= n ->
  Nat.iter n (step net) (runSync m s) =
  (settled (result net m), applyAll (trace net m) s).
Proof.
  assert (Hfix : forall (r : Exc A) s k,
             Nat.iter k (step net) (settled r, s) = (settled r, s)).
  { intros r s k. induction k as [|k IH]; simpl; auto.
    rewrite IH. destruct r; reflexivity. }
  assert (Hshift : forall k (c : Async A * AppState),
             Nat.iter k (step net) (step net c) =
             step net (Nat.iter k (step net) c)).
  { intros k c. induction k as [|k IH]; simpl; auto. now rewrite IH. }
  induction n as [|n IH]; intros m s Hle.
  - simpl. rewrite runSync_spec.
    rewrite (trace_afterCalls m), <- (result_afterCalls m).
    rewrite <- (stepsLeft_afterCalls m) in Hle.
    destruct (afterCalls m) eqn:E; simpl in *; try lia;
      try (now rewrite app_nil_r).
    now apply afterCalls_not_Call in E.
  - simpl. rewrite <- Hshift.
    rewrite runSync_spec at 1. unfold step at 2. simpl fst. simpl snd.
    rewrite IH.
    + rewrite result_resume, trace_resume, result_afterCalls.
      rewrite <- applyAll_app, <- trace_afterCalls. reflexivity.
    + rewrite <- (stepsLeft_afterCalls m) in Hle.
      destruct (afterCalls m) eqn:E; simpl in *; try lia.
      now apply afterCalls_not_Call in E.
Qed.

End AsyncFacts.

(** ** Shapes are kept by the combinators *)

Lemma awaitsAtMost_mono {A} (m : Async A) : forall n n',
  awaitsAtMost m n -> n <= n' -> awaitsAtMost m n'.
Proof.
  induction m as [a | e | u k IH | url k IH | r k IH]; simpl; intros n n' H Hle;
    eauto.
  - destruct n; [easy|]. destruct n'; [lia|]. intros x.
    apply (IH x n); auto; lia.
  - destruct n; [easy|]. destruct n'; [lia|]. intros x.
    apply (IH x n); auto; lia.
Qed.

Section Shapes.

Context {A B : Type}.
Variable P : Setter -> Prop.

Lemma callsIn_settled (r : Exc A) : callsIn P (settled r).
Proof. destruct r; exact I. Qed.

Lemma callsIn_bind (m : Async A) (f : A -> Async B) :
  callsIn P m -> (forall a, callsIn P (f a)) -> callsIn P (bind m f).
Proof.
  intros Hm Hf.
  induction m as [a | e | u k IH | url k IH | r k IH]; simpl in *; auto.
  destruct Hm; auto.
Qed.

Lemma callsIn_tryCatch (m : Async A) (h : Error -> Async A) :
  callsIn P m -> (forall e, callsIn P (h e)) -> callsIn P (tryCatch m h).
Proof.
  intros Hm Hh.
  induction m as [a | e | u k IH | url k IH | r k IH]; simpl in *; auto.
  destruct Hm; auto.
Qed.

Lemma callsIn_resume (net : Network) (m : Async A) :
  callsIn P m -> callsIn P (resume net m).
Proof. destruct m; simpl; auto. Qed.

Lemma callsIn_afterCalls (m : Async A) :
  callsIn P m -> callsIn P (afterCalls m).
Proof. induction m; simpl; auto. intros []; auto. Qed.

Lemma callsIn_prefix (m : Async A) :
  callsIn P m -> Forall P (callsUntilSuspended m).
Proof.
  induction m; simpl; auto. intros []; auto.
Qed.

Lemma callsIn_trace (net : Network) (m : Async A) :
  callsIn P m -> Forall P (trace net m).
Proof.
  induction m; simpl; auto. intros []; auto.
Qed.

Lemma awaitsAtMost_bind (m : Async A) (f : A -> Async B) : forall n1 n2,
  awaitsAtMost m n1 -> (forall a, awaitsAtMost (f a) n2) ->
  awaitsAtMost (bind m f) (n1 + n2).
Proof.
  induction m as [a | e | u k IH | url k IH | r k IH]; simpl; intros n1 n2 H Hf;
    eauto.
  - apply awaitsAtMost_mono with (n := n2); auto; lia.
  - destruct n1; [easy|]. simpl. intros x. apply IH; auto.
  - destruct n1; [easy|]. simpl. intros x. apply IH; auto.
Qed.

Lemma awaitsAtMost_tryCatch (m : Async A) (h : Error -> Async A) : forall n,
  awaitsAtMost m n -> (forall e, awaitsAtMost (h e) 0) ->
  awaitsAtMost (tryCatch m h) n.
Proof.
  induction m as [a | e | u k IH | url k IH | r k IH]; simpl; intros n H Hh;
    eauto.
  - apply awaitsAtMost_mono with (n := 0); auto; lia.
  - destruct n; [easy|]. intros x. apply IH; auto.
  - destruct n; [easy|]. intros x. apply IH; auto.
Qed.

Lemma awaitsAtMost_stepsLeft (net : Network) (m : Async A) : forall n,
  awaitsAtMost m n -> stepsLeft net m <= n.
Proof.
  induction m as [a | e | u k IH | url k IH | r k IH]; simpl; intros n H;
    try lia; auto.
  - destruct n; [easy|]. specialize (IH _ _ (H (net url))). lia.
  - destruct n; [easy|]. specialize (IH _ _ (H (json r))). lia.
Qed.

End Shapes.

Lemma awaitsAtMost_settled {A} (r : Exc A) : awaitsAtMost (settled r) 0.
Proof. destruct r; exact I. Qed.

(** ** The adapters' shapes *)

Lemma adapterFn_eq (host : Host) (a : Adapter) :
  adapterFn host a = tryCatch (adapterTry host a) catch_setError.
Proof. destruct a; reflexivity. Qed.

Ltac shape_step :=
  first
    [ exact I
    | apply callsIn_settled
    | apply callsIn_bind; [ | intros ? ]
    | match goal with
      | |- callsIn _ (if ?b then _ else _) => destruct b
      | |- callsIn _ (when_ ?b _) => destruct b; simpl
      | |- callsIn _ (call _) => simpl; split; [ reflexivity | exact I ]
      | |- callsIn _ (throw_new_Error _) => exact I
      | |- callsIn _ (Ret _) => exact I
      | |- callsIn _ (await_fetch _) => intros ?; apply callsIn_settled
      | |- callsIn _ (await_json _) => intros ?; apply callsIn_settled
      | |- callsIn _ (eval _) => apply callsIn_settled
      end ].

(** An adapter's [try] block calls only the setters of its own cells. *)
Lemma adapterTry_calls (host : Host) (a : Adapter) :
  callsIn (fun u => owner u = Some a) (adapterTry host a).
Proof.
  destruct a; unfold adapterTry, fetchLatestBlockInfo_try,
    fetchBtcMetrics_try, fetchPriceData_try, fetchFearGreedIndex_try;
    repeat shape_step.
Qed.

Ltac awaits_step :=
  first
    [ exact I
    | apply awaitsAtMost_settled
    | match goal with
      | |- awaitsAtMost (bind (await_fetch _) _) _ =>
          apply (awaitsAtMost_bind _ _ 1 1);
          [ intros ?; apply awaitsAtMost_settled | intros ? ]
      | |- awaitsAtMost (bind (await_json _) _) _ =>
          apply (awaitsAtMost_bind _ _ 1 0);
          [ intros ?; apply awaitsAtMost_settled | intros ? ]
      | |- awaitsAtMost (bind (when_ _ _) _) 1 =>
          apply (awaitsAtMost_bind _ _ 0 1); [ | intros ? ]
      | |- awaitsAtMost (bind _ _) 0 =>
          apply (awaitsAtMost_bind _ _ 0 0); [ | intros ? ]
      | |- awaitsAtMost (if ?b then _ else _) _ => destruct b
      | |- awaitsAtMost (when_ ?b _) _ => destruct b; simpl
      | |- awaitsAtMost (call _) _ => exact I
      | |- awaitsAtMost (throw_new_Error _) _ => exact I
      | |- awaitsAtMost (Ret _) _ => exact I
      | |- awaitsAtMost (eval _) _ => apply awaitsAtMost_settled
      end ].

(** An adapter suspends twice at most: for the response and for its
    body. *)
Lemma adapterTry_awaits (host : Host) (a : Adapter) :
  awaitsAtMost (adapterTry host a) 2.
Proof.
  destruct a; unfold adapterTry, fetchLatestBlockInfo_try,
    fetchBtcMetrics_try, fetchPriceData_try, fetchFearGreedIndex_try;
    repeat awaits_step.
Qed.

(** ** Setters and the cells they write *)

Lemma Adapter_eq_dec (a b : Adapter) : {a = b} + {a <> b}.
Proof. decide equality. Defined.

Lemma snapshot_other (u : Setter) (a : Adapter) (s : AppState) :
  owner u <> Some a -> snapshot a (applySetter u s) = snapshot a s.
Proof. destruct u, a; simpl; intros H; congruence. Qed.

Lemma snapshot_applyAll_other (us : list Setter) (a : Adapter) :
  forall s, Forall (fun u => owner u <> Some a) us ->
            snapshot a (applyAll us s) = snapshot a s.
Proof.
  induction us as [|u us IH]; intros s H; simpl; auto.
  inversion H; subst. change (applyAll (u :: us) s) with
    (applyAll us (applySetter u s)).
  rewrite IH by assumption. now apply snapshot_other.
Qed.

Lemma snapshot_congr (us : list Setter) (a : Adapter) : forall s1 s2,
  snapshot a s1 = snapshot a s2 ->
  snapshot a (applyAll us s1) = snapshot a (applyAll us s2).
Proof.
  induction us as [|u us IH]; intros s1 s2 H; simpl; auto.
  change (snapshot a (applyAll us (applySetter u s1)) =
          snapshot a (applyAll us (applySetter u s2))).
  apply IH. destruct u, a; simpl in *; congruence.
Qed.

Lemma error_applyAll_owned (us : list Setter) : forall s,
  Forall (fun u => owner u <> None) us -> error (applyAll us s) = error s.
Proof.
  induction us as [|u us IH]; intros s H; simpl; auto.
  inversion H; subst.
  change (error (applyAll us (applySetter u s)) = error s).
  rewrite IH by assumption. destruct u; simpl in *; congruence.
Qed.

Lemma callsIn_weaken {A} (P Q : Setter -> Prop) (m : Async A) :
  (forall u, P u -> Q u) -> callsIn P m -> callsIn Q m.
Proof.
  intros HPQ. induction m; simpl; auto. intros []; auto.
Qed.

(** ** A function guarded by [catch (err) { setError(err.message) }] *)

Lemma afterCalls_guard (b : Async unit) :
  afterCalls (tryCatch b catch_setError) =
  match afterCalls b with
  | Ret a => Ret a
  | Throw _ => Ret tt
  | b' => tryCatch b' catch_setError
  end.
Proof. induction b; simpl; auto. Qed.

Lemma prefix_guard (b : Async unit) :
  callsUntilSuspended (tryCatch b catch_setError) =
  callsUntilSuspended b ++
  match afterCalls b with
  | Throw e => [SetError (message e)]
  | _ => []
  end.
Proof. induction b; simpl; auto. now f_equal. Qed.

Lemma resume_guard (net : Network) (b : Async unit)
    (h : Error -> Async unit) :
  suspended b = true ->
  resume net (tryCatch b h) = tryCatch (resume net b) h.
Proof. destruct b; simpl; auto; discriminate. Qed.

(** ** Lists of promises *)

Lemma nth_error_replaceNth_eq {A} (i : nat) (x : A) : forall l,
  i < length l -> nth_error (App.replaceNth i x l) i = Some x.
Proof.
  induction i as [|i IH]; intros [|y l] H; simpl in *; try lia; auto.
  apply IH. lia.
Qed.

Lemma nth_error_replaceNth_neq {A} (i j : nat) (x : A) : forall l,
  i <> j -> nth_error (App.replaceNth i x l) j = nth_error l j.
Proof.
  revert j. induction i as [|i IH]; intros [|j] [|y l] H; simpl; auto;
    try congruence.
Qed.

Lemma length_replaceNth {A} (i : nat) (x : A) : forall l,
  length (App.replaceNth i x l) = length l.
Proof.
  induction i as [|i IH]; intros [|y l]; simpl; auto.
Qed.

Lemma slot_inj (a b : Adapter) : App.slot a = App.slot b -> a = b.
Proof. destruct a, b; simpl; congruence. Qed.

Lemma slot_lt (a : Adapter) : App.slot a < 4.
Proof. destruct a; simpl; lia. Qed.

Lemma adapterAt_some (i : nat) (a : Adapter) :
  adapterAt i = Some a -> i = App.slot a.
Proof.
  unfold adapterAt.
  do 4 (destruct i as [|i]; [simpl; intros [= <-]; reflexivity|]).
  destruct i; discriminate.
Qed.

Lemma adapterAt_none (i : nat) : adapterAt i = None -> 4 <= i.
Proof.
  unfold adapterAt.
  do 4 (destruct i as [|i]; [discriminate|]). lia.
Qed.

Lemma task_nth_error (c : App.Cycle) (a : Adapter) :
  length (App.promises c) = 4 ->
  nth_error (App.promises c) (App.slot a) = Some (task c a).
Proof.
  intros H. unfold task. apply nth_error_nth'. rewrite H. apply slot_lt.
Qed.

(** ** The invariant of a [Promise.all] cycle *)

Section CycleFacts.

Variable host : Host.
Variable net : Network.

Lemma Guarded_allowed (a : Adapter) (m : Async unit) :
  Guarded host net a m -> callsIn (allowed a) m.
Proof.
  intros [-> | (b & -> & _ & Hb & _)]; [exact I|].
  apply callsIn_tryCatch.
  - eapply callsIn_weaken; [|exact Hb]. intros u Hu. now left.
  - intros e. simpl. split; [now right | exact I].
Qed.

Lemma Guarded_settled (a : Adapter) (m : Async unit) :
  Guarded host net a m -> isSettled m = true -> m = Ret tt.
Proof.
  intros [-> | (b & -> & Hs & _)]; auto.
  destruct b; simpl in *; discriminate.
Qed.

Lemma Guarded_not_rejected (a : Adapter) (m : Async unit) :
  Guarded host net a m -> rejection m = None.
Proof.
  intros [-> | (b & -> & Hs & _)]; auto.
  destruct b; simpl in *; auto; discriminate.
Qed.

(** Resuming a guarded promise gives a guarded promise. *)
Lemma Guarded_step (a : Adapter) (m : Async unit) :
  Guarded host net a m ->
  Guarded host net a (afterCalls (resume net m)).
Proof.
  intros [-> | (b & -> & Hs & Hb & Hr)]; [now left|].
  rewrite resume_guard by assumption. rewrite afterCalls_guard.
  destruct (afterCalls (resume net b)) as [[] | e | u k | url k | r k] eqn:E.
  - now left.
  - now left.
  - now apply afterCalls_not_Call in E.
  - right. exists (AwaitFetch url k). repeat split; auto.
    + rewrite <- E. now apply callsIn_afterCalls, callsIn_resume.
    + rewrite <- Hr, <- (result_resume net b).
      rewrite <- (result_afterCalls net (resume net b)), E. reflexivity.
  - right. exists (AwaitJson r k). repeat split; auto.
    + rewrite <- E. now apply callsIn_afterCalls, callsIn_resume.
    + rewrite <- Hr, <- (result_resume net b).
      rewrite <- (result_afterCalls net (resume net b)), E. reflexivity.
Qed.

Lemma resumeAt_settled (c : App.Cycle) (i : nat) (m : Async unit) :
  nth_error (App.promises c) i = Some m -> isSettled m = true ->
  App.resumeAt net c i = c.
Proof. intros H1 H2. unfold App.resumeAt. now rewrite H1, H2. Qed.

Lemma resumeAt_beyond (c : App.Cycle) (i : nat) :
  nth_error (App.promises c) i = None -> App.resumeAt net c i = c.
Proof. intros H. unfold App.resumeAt. now rewrite H. Qed.

Lemma resumeAt_unsettled (c : App.Cycle) (i : nat) (m : Async unit) :
  nth_error (App.promises c) i = Some m -> isSettled m = false ->
  App.resumeAt net c i =
  let m' := afterCalls (resume net m) in
  let ps := App.replaceNth i m' (App.promises c) in
  App.mkCycle ps (App.join (App.joined c) m' ps)
    (applyAll (callsUntilSuspended (resume net m)) (App.state c)).
Proof.
  intros H1 H2. unfold App.resumeAt. rewrite H1, H2, runSync_spec.
  reflexivity.
Qed.

Lemma task_replaced (c : App.Cycle) (a b : Adapter) (m : Async unit) j s :
  length (App.promises c) = 4 ->
  task (App.mkCycle (App.replaceNth (App.slot a) m (App.promises c)) j s) b =
  if Adapter_eq_dec a b then m else task c b.
Proof.
  intros H. unfold task at 1. simpl.
  destruct (Adapter_eq_dec a b) as [<- | Hne].
  - apply nth_error_nth.
    apply nth_error_replaceNth_eq. rewrite H. apply slot_lt.
  - unfold task. apply nth_error_nth.
    rewrite nth_error_replaceNth_neq.
    + apply nth_error_nth'. rewrite H. apply slot_lt.
    + intros Heq. apply Hne. now apply slot_inj.
Qed.

Lemma forallb_isFulfilled_settled (ps : list (Async unit)) :
  forallb isFulfilled ps = true -> forall i m,
  nth_error ps i = Some m -> isSettled m = true.
Proof.
  intros H i m Hi. rewrite forallb_forall in H.
  apply nth_error_In in Hi. specialize (H _ Hi). now destruct m.
Qed.

Variable s0 : AppState.

Lemma CycleInv_start : CycleInv host net s0 (App.start host s0).
Proof.
  assert (E : App.start host s0 =
              App.mkCycle (App.fetchLatestData host) Pending s0)
    by reflexivity.
  rewrite E. constructor; simpl; auto.
  - intros a. right. exists (adapterTry host a). repeat split.
    + destruct a; reflexivity.
    + destruct a; reflexivity.
    + apply adapterTry_calls.
  - intros a. destruct a; reflexivity.
Qed.

Lemma CycleInv_resumeAt (c : App.Cycle) (i : nat) :
  CycleInv host net s0 c -> CycleInv host net s0 (App.resumeAt net c i).
Proof.
  intros Hc. destruct (adapterAt i) as [a|] eqn:Ei.
  2:{ rewrite resumeAt_beyond; auto. apply nth_error_None.
      rewrite (inv_length Hc). now apply adapterAt_none. }
  apply adapterAt_some in Ei. subst i.
  pose proof (task_nth_error c a (inv_length Hc)) as Hn.
  pose proof (inv_guarded Hc a) as Hg.
  destruct (isSettled (task c a)) eqn:Es.
  { rewrite (resumeAt_settled _ _ Hn Es). exact Hc. }
  rewrite (resumeAt_unsettled _ _ Hn Es). cbv zeta.
  pose proof (Guarded_step Hg) as Hg'.
  pose proof (Guarded_allowed Hg) as Hal.
  constructor.
  - simpl. rewrite length_replaceNth. apply (inv_length Hc).
  - intros b. rewrite task_replaced by apply (inv_length Hc).
    destruct (Adapter_eq_dec a b) as [<- | Hne]; auto.
    apply (inv_guarded Hc).
  - intros b. rewrite task_replaced by apply (inv_length Hc).
    cbn [App.state].
    destruct (Adapter_eq_dec a b) as [<- | Hne].
    + rewrite <- applyAll_app, <- trace_afterCalls, trace_resume.
      apply (inv_snapshot Hc).
    + rewrite <- (inv_snapshot Hc b). apply snapshot_congr.
      apply snapshot_applyAll_other.
      apply (callsIn_resume _ net) in Hal. apply callsIn_prefix in Hal.
      eapply Forall_impl; [|exact Hal].
      intros u [Hu | Hu]; congruence.
  - cbn [App.joined App.promises].
    rewrite (inv_joined Hc).
    destruct (forallb isFulfilled (App.promises c)) eqn:Ef.
    + pose proof (forallb_isFulfilled_settled _ Ef _ Hn). congruence.
    + unfold App.join. now rewrite (Guarded_not_rejected Hg').
Qed.

Lemma CycleInv_run (schedule : list nat) : forall c,
  CycleInv host net s0 c -> CycleInv host net s0 (App.run net schedule c).
Proof.
  induction schedule as [|i rest IH]; intros c Hc; simpl; auto.
  apply IH. now apply CycleInv_resumeAt.
Qed.

End CycleFacts.

(** ** What one turn of the event loop does *)

Section TurnFacts.

Variable host : Host.
Variable net : Network.
Variable s0 : AppState.

Lemma promises_four (c : App.Cycle) :
  length (App.promises c) = 4 ->
  App.promises c =
  [task c BlockInfo; task c BtcMetrics; task c PriceData; task c FearGreed].
Proof.
  unfold task. destruct (App.promises c) as [|m0 [|m1 [|m2 [|m3 [|m4 l]]]]];
    simpl; intros H; try discriminate. reflexivity.
Qed.

(** The calls a turn makes are calls of the adapter whose turn it is. *)
Lemma resumeAt_calls (c : App.Cycle) (a : Adapter) :
  CycleInv host net s0 c ->
  exists calls,
    App.state (App.resumeAt net c (App.slot a)) = applyAll calls (App.state c)
    /\ Forall (allowed a) calls.
Proof.
  intros Hc.
  pose proof (task_nth_error c a (inv_length Hc)) as Hn.
  destruct (isSettled (task c a)) eqn:Es.
  - rewrite (resumeAt_settled _ _ _ Hn Es). exists []. split; auto.
  - rewrite (resumeAt_unsettled _ _ _ Hn Es). cbv zeta. cbn [App.state].
    eexists. split; [reflexivity|].
    apply callsIn_prefix, callsIn_resume.
    apply (Guarded_allowed (inv_guarded Hc a)).
Qed.

Lemma stepsLeft_resume {A} (m : Async A) :
  (forall u k, m <> Call u k) ->
  stepsLeft net (resume net m) = stepsLeft net m - 1.
Proof.
  destruct m; simpl; intros H; try lia. now destruct (H u m).
Qed.

Lemma Guarded_not_Call (a : Adapter) (m : Async unit) :
  Guarded host net a m -> forall u k, m <> Call u k.
Proof.
  intros [-> | (b & -> & Hs & _)] u k; [discriminate|].
  destruct b; simpl in *; discriminate.
Qed.

Lemma Guarded_stepsLeft (a : Adapter) (m : Async unit) :
  Guarded host net a m -> stepsLeft net m = 0 -> m = Ret tt.
Proof.
  intros [-> | (b & -> & Hs & _)]; auto.
  destruct b; simpl in *; discriminate.
Qed.

Lemma stepsLeft_resumeAt (c : App.Cycle) (i : nat) (a : Adapter) :
  CycleInv host net s0 c ->
  stepsLeft net (task (App.resumeAt net c i) a) =
  stepsLeft net (task c a) - (if Nat.eq_dec i (App.slot a) then 1 else 0).
Proof.
  intros Hc. destruct (adapterAt i) as [a'|] eqn:Ei.
  2:{ rewrite resumeAt_beyond.
      - apply adapterAt_none in Ei. pose proof (slot_lt a).
        destruct (Nat.eq_dec i (App.slot a)); lia.
      - apply nth_error_None. rewrite (inv_length Hc).
        now apply adapterAt_none. }
  apply adapterAt_some in Ei. subst i.
  pose proof (task_nth_error c a' (inv_length Hc)) as Hn.
  pose proof (inv_guarded Hc a') as Hg.
  destruct (isSettled (task c a')) eqn:Es.
  - rewrite (resumeAt_settled _ _ _ Hn Es).
    destruct (Nat.eq_dec (App.slot a') (App.slot a)) as [E|E]; [|lia].
    apply slot_inj in E. subst a'.
    rewrite (Guarded_settled Hg Es). reflexivity.
  - rewrite (resumeAt_unsettled _ _ _ Hn Es). cbv zeta.
    rewrite task_replaced by apply (inv_length Hc).
    destruct (Adapter_eq_dec a' a) as [<- | Hne].
    + destruct (Nat.eq_dec (App.slot a') (App.slot a')) as [_|E];
        [|congruence].
      rewrite stepsLeft_afterCalls.
      apply stepsLeft_resume. now apply Guarded_not_Call with (a := a').
    + destruct (Nat.eq_dec (App.slot a') (App.slot a)) as [E|E]; [|lia].
      apply slot_inj in E. congruence.
Qed.

Lemma stepsLeft_run (schedule : list nat) (a : Adapter) : forall c,
  CycleInv host net s0 c ->
  stepsLeft net (task (App.run net schedule c) a) =
  stepsLeft net (task c a) - count_occ Nat.eq_dec schedule (App.slot a).
Proof.
  induction schedule as [|i rest IH]; intros c Hc; simpl.
  - lia.
  - change (fold_left (App.resumeAt net) rest (App.resumeAt net c i))
      with (App.run net rest (App.resumeAt net c i)).
    rewrite IH by now apply CycleInv_resumeAt.
    rewrite stepsLeft_resumeAt by assumption.
    destruct (Nat.eq_dec i (App.slot a)); lia.
Qed.

Lemma adapterFn_awaits (a : Adapter) : awaitsAtMost (adapterFn host a) 2.
Proof.
  rewrite adapterFn_eq. apply awaitsAtMost_tryCatch.
  - apply adapterTry_awaits.
  - intros e. exact I.
Qed.

Lemma answersAll_count (schedule : list nat) (a : Adapter) :
  answersAll schedule = true ->
  2 <= count_occ Nat.eq_dec schedule (App.slot a).
Proof.
  unfold answersAll. cbn [forallb]. rewrite !andb_true_iff, !Nat.leb_le.
  intros (H0 & H1 & H2 & H3 & _). destruct a; assumption.
Qed.

(** Once every slot has had two answers, every promise is fulfilled. *)
Lemma answered_tasks (schedule : list nat) (a : Adapter) :
  answersAll schedule = true ->
  task (App.run net schedule (App.start host s0)) a = Ret tt.
Proof.
  intros Hall.
  pose proof (CycleInv_start host net s0) as H0.
  pose proof (CycleInv_run schedule H0) as Hc.
  apply (Guarded_stepsLeft (inv_guarded Hc a)).
  rewrite stepsLeft_run by assumption.
  pose proof (@answersAll_count schedule a Hall).
  assert (stepsLeft net (task (App.start host s0) a) <= 2); [|lia].
  replace (task (App.start host s0) a) with (adapterFn host a)
    by (destruct a; reflexivity).
  apply awaitsAtMost_stepsLeft, adapterFn_awaits.
Qed.

Lemma result_guard (b : Async unit) :
  result net (tryCatch b catch_setError) = inr tt.
Proof.
  rewrite result_tryCatch. destruct (result net b) as [e | []]; reflexivity.
Qed.

Lemma adapterFn_result (a : Adapter) : result net (adapterFn host a) = inr tt.
Proof. rewrite adapterFn_eq. apply result_guard. Qed.

Lemma adapterFn_allowed (a : Adapter) : callsIn (allowed a) (adapterFn host a).
Proof.
  rewrite adapterFn_eq. apply callsIn_tryCatch.
  - eapply callsIn_weaken; [|apply adapterTry_calls]. intros u Hu. now left.
  - intros e. simpl. split; [now right | exact I].
Qed.

(** The trace of an adapter: the calls of its [try] block, then
    [setError] when the block threw. *)
Lemma adapterFn_trace (a : Adapter) :
  trace net (adapterFn host a) =
  trace net (adapterTry host a) ++
  match failure host net a with
  | Some e => [SetError (message e)]
  | None => []
  end.
Proof.
  rewrite adapterFn_eq, trace_tryCatch. unfold failure.
  destruct (result net (adapterTry host a)); reflexivity.
Qed.

Lemma adapterFn_error (a : Adapter) (s : AppState) :
  error (snd (exec net (adapterFn host a) s)) =
  match failure host net a with
  | Some e => message e
  | None => error s
  end.
Proof.
  unfold exec. cbn [snd]. rewrite adapterFn_trace, applyAll_app.
  assert (Ho : error (applyAll (trace net (adapterTry host a)) s) = error s).
  { apply error_applyAll_owned.
    eapply Forall_impl; [|apply callsIn_trace, adapterTry_calls].
    simpl. intros u Hu. congruence. }
  destruct (failure host net a); simpl; auto.
Qed.

End TurnFacts.

(** ** The order in which promises settle, and the error it leaves *)

Section SettleFacts.

Variable host : Host.
Variable net : Network.
Variable s0 : AppState.

Lemma lastFailure_app (l1 l2 : list Adapter) :
  lastFailure host net (l1 ++ l2) =
  match lastFailure host net l2 with
  | Some e => Some e
  | None => lastFailure host net l1
  end.
Proof.
  induction l1 as [|a l1 IH]; simpl.
  - now destruct (lastFailure host net l2).
  - rewrite IH. now destruct (lastFailure host net l2).
Qed.

(** The turn in which a guarded promise settles is the turn in which its
    failure, if any, is written to [error]. *)
Lemma guarded_turn_error (a : Adapter) (m : Async unit) (s : AppState) :
  Guarded host net a m -> isSettled m = false ->
  error (applyAll (callsUntilSuspended (resume net m)) s) =
  if isSettled (afterCalls (resume net m))
  then match failure host net a with
       | Some e => message e
       | None => error s
       end
  else error s.
Proof.
  intros [-> | (b & -> & Hs & Hb & Hr)] Hm; [discriminate|].
  rewrite resume_guard by assumption.
  rewrite prefix_guard, afterCalls_guard, applyAll_app.
  assert (Hown : error (applyAll (callsUntilSuspended (resume net b)) s) =
                 error s).
  { apply error_applyAll_owned.
    eapply Forall_impl;
      [|apply callsIn_prefix, callsIn_resume; exact Hb].
    simpl. intros u Hu. congruence. }
  assert (Hres : result net (afterCalls (resume net b)) =
                 result net (adapterTry host a))
    by now rewrite result_afterCalls, result_resume.
  unfold failure. rewrite <- Hres.
  destruct (afterCalls (resume net b)) as [[] | e | u k | url k | r k];
    simpl; auto.
Qed.

Lemma order_cons (i : nat) (rest : list nat) (c : App.Cycle) :
  CycleInv host net s0 c ->
  Settle.order net (i :: rest) c =
  match adapterAt i with
  | Some a =>
      if negb (isSettled (task c a))
         && isSettled (task (App.resumeAt net c i) a)
      then [a] else []
  | None => []
  end ++ Settle.order net rest (App.resumeAt net c i).
Proof.
  intros Hc. cbn [Settle.order]. f_equal.
  destruct (adapterAt i) as [a|] eqn:Ei.
  - apply adapterAt_some in Ei. subst i.
    rewrite (task_nth_error c a (inv_length Hc)).
    rewrite (task_nth_error _ a
               (inv_length (CycleInv_resumeAt (App.slot a) Hc))).
    reflexivity.
  - destruct (nth_error (App.promises c) i);
      destruct (nth_error (App.promises (App.resumeAt net c i)) i);
      reflexivity.
Qed.

Lemma resumeAt_error (c : App.Cycle) (i : nat) :
  CycleInv host net s0 c ->
  error (App.state (App.resumeAt net c i)) =
  match lastFailure host net
          (match adapterAt i with
           | Some a =>
               if negb (isSettled (task c a))
                  && isSettled (task (App.resumeAt net c i) a)
               then [a] else []
           | None => []
           end) with
  | Some e => message e
  | None => error (App.state c)
  end.
Proof.
  intros Hc. destruct (adapterAt i) as [a|] eqn:Ei.
  2:{ rewrite resumeAt_beyond; auto. apply nth_error_None.
      rewrite (inv_length Hc). now apply adapterAt_none. }
  apply adapterAt_some in Ei. subst i.
  pose proof (task_nth_error c a (inv_length Hc)) as Hn.
  destruct (isSettled (task c a)) eqn:Es.
  { rewrite (resumeAt_settled _ _ _ Hn Es). reflexivity. }
  rewrite (resumeAt_unsettled _ _ _ Hn Es). cbv zeta. cbn [App.state].
  rewrite task_replaced by apply (inv_length Hc).
  destruct (Adapter_eq_dec a a) as [_|]; [|congruence].
  rewrite (guarded_turn_error _ (inv_guarded Hc a) Es).
  destruct (isSettled (afterCalls (resume net (task c a)))); simpl; auto.
Qed.

Lemma run_error (schedule : list nat) : forall c,
  CycleInv host net s0 c ->
  error (App.state (App.run net schedule c)) =
  match lastFailure host net (Settle.order net schedule c) with
  | Some e => message e
  | None => error (App.state c)
  end.
Proof.
  induction schedule as [|i rest IH]; intros c Hc; [reflexivity|].
  rewrite order_cons by assumption. rewrite lastFailure_app.
  change (App.run net (i :: rest) c)
    with (App.run net rest (App.resumeAt net c i)).
  rewrite IH by now apply CycleInv_resumeAt.
  destruct (lastFailure host net
              (Settle.order net rest (App.resumeAt net c i))); auto.
  now apply resumeAt_error.
Qed.

(** A promise that has settled stays as it is. *)
Lemma settled_resumeAt (c : App.Cycle) (i : nat) (a : Adapter) :
  CycleInv host net s0 c -> isSettled (task c a) = true ->
  task (App.resumeAt net c i) a = task c a.
Proof.
  intros Hc Ha. destruct (adapterAt i) as [a'|] eqn:Ei.
  2:{ rewrite resumeAt_beyond; auto. apply nth_error_None.
      rewrite (inv_length Hc). now apply adapterAt_none. }
  apply adapterAt_some in Ei. subst i.
  pose proof (task_nth_error c a' (inv_length Hc)) as Hn.
  destruct (isSettled (task c a')) eqn:Es.
  { now rewrite (resumeAt_settled _ _ _ Hn Es). }
  rewrite (resumeAt_unsettled _ _ _ Hn Es). cbv zeta.
  rewrite task_replaced by apply (inv_length Hc).
  destruct (Adapter_eq_dec a' a) as [-> | _]; congruence.
Qed.

Lemma other_resumeAt (c : App.Cycle) (i : nat) (a : Adapter) :
  CycleInv host net s0 c -> adapterAt i <> Some a ->
  task (App.resumeAt net c i) a = task c a.
Proof.
  intros Hc Hi. destruct (adapterAt i) as [a'|] eqn:Ei.
  2:{ rewrite resumeAt_beyond; auto. apply nth_error_None.
      rewrite (inv_length Hc). now apply adapterAt_none. }
  apply adapterAt_some in Ei. subst i.
  pose proof (task_nth_error c a' (inv_length Hc)) as Hn.
  destruct (isSettled (task c a')) eqn:Es.
  { now rewrite (resumeAt_settled _ _ _ Hn Es). }
  rewrite (resumeAt_unsettled _ _ _ Hn Es). cbv zeta.
  rewrite task_replaced by apply (inv_length Hc).
  destruct (Adapter_eq_dec a' a) as [-> | _]; congruence.
Qed.

Lemma settled_run (schedule : list nat) (a : Adapter) : forall c,
  CycleInv host net s0 c -> isSettled (task c a) = true ->
  task (App.run net schedule c) a = task c a.
Proof.
  induction schedule as [|i rest IH]; intros c Hc Ha; [reflexivity|].
  change (App.run net (i :: rest) c)
    with (App.run net rest (App.resumeAt net c i)).
  rewrite IH.
  - now apply settled_resumeAt.
  - now apply CycleInv_resumeAt.
  - now rewrite settled_resumeAt.
Qed.

(** The settle order lists exactly the adapters that settle during the
    schedule, each once. *)
Lemma order_spec (schedule : list nat) : forall c,
  CycleInv host net s0 c ->
  NoDup (Settle.order net schedule c)
  /\ forall a, In a (Settle.order net schedule c) <->
               isSettled (task c a) = false
               /\ isSettled (task (App.run net schedule c) a) = true.
Proof.
  induction schedule as [|i rest IH]; intros c Hc.
  - split; [constructor|]. intros a. simpl. split; [easy|].
    intros [H1 H2]. congruence.
  - pose proof (CycleInv_resumeAt i Hc) as Hc'.
    destruct (IH _ Hc') as [Hnd Hin].
    rewrite order_cons by assumption.
    change (App.run net (i :: rest) c)
      with (App.run net rest (App.resumeAt net c i)).
    set (c' := App.resumeAt net c i) in *.
    assert (Hnow : forall a,
      In a (match adapterAt i with
            | Some a0 =>
                if negb (isSettled (task c a0)) && isSettled (task c' a0)
                then [a0] else []
            | None => []
            end) <->
      isSettled (task c a) = false /\ isSettled (task c' a) = true).
    { intros a. destruct (adapterAt i) as [a0|] eqn:Ei.
      - destruct (isSettled (task c a0)) eqn:E0;
          destruct (isSettled (task c' a0)) eqn:E1; simpl.
        + split; [easy|]. intros [H1 H2].
          destruct (Adapter_eq_dec a0 a) as [<- | Hne]; [congruence|].
          unfold c' in H2. rewrite other_resumeAt in H2; congruence.
        + split; [easy|]. intros [H1 H2].
          destruct (Adapter_eq_dec a0 a) as [<- | Hne]; [congruence|].
          unfold c' in H2. rewrite other_resumeAt in H2; congruence.
        + split.
          * intros [<- | []]. auto.
          * intros [H1 H2].
            destruct (Adapter_eq_dec a0 a) as [<- | Hne]; [now left|].
            unfold c' in H2. rewrite other_resumeAt in H2; congruence.
        + split; [easy|]. intros [H1 H2].
          destruct (Adapter_eq_dec a0 a) as [<- | Hne]; [congruence|].
          unfold c' in H2. rewrite other_resumeAt in H2; congruence.
      - split; [easy|]. intros [H1 H2].
        unfold c' in H2. rewrite other_resumeAt in H2; congruence. }
    split.
    + apply NoDup_app; [| exact Hnd |].
      * destruct (adapterAt i) as [a0|]; [|constructor].
        destruct (negb (isSettled (task c a0)) && isSettled (task c' a0));
          repeat constructor; easy.
      * intros a Ha Hb. apply Hnow in Ha. apply Hin in Hb.
        destruct Ha, Hb. congruence.
    + intros a. rewrite in_app_iff, Hnow, Hin. split.
      * intros [[H1 H2] | [H1 H2]].
        -- split; auto. rewrite settled_run; auto.
        -- split; auto.
           destruct (isSettled (task c a)) eqn:E; auto.
           unfold c' in H1. rewrite settled_resumeAt in H1; congruence.
      * intros [H1 H2].
        destruct (isSettled (task c' a)) eqn:E; auto.
Qed.

End SettleFacts.

(** ** The sequential variant, adapter by adapter *)

Section SequentialFacts.

Variable host : Host.
Variable net : Network.

Lemma sequential_body_result :
  result net (fetchLatestBlockInfo host ;; fetchBtcMetrics host ;;
              fetchPriceData host ;; fetchFearGreedIndex host) = inr tt.
Proof.
  change (fetchLatestBlockInfo host) with (adapterFn host BlockInfo).
  change (fetchBtcMetrics host) with (adapterFn host BtcMetrics).
  change (fetchPriceData host) with (adapterFn host PriceData).
  change (fetchFearGreedIndex host) with (adapterFn host FearGreed).
  rewrite !result_bind.
  rewrite (adapterFn_result host net BlockInfo).
  rewrite (adapterFn_result host net BtcMetrics).
  rewrite (adapterFn_result host net PriceData).
  apply (adapterFn_result host net FearGreed).
Qed.

(** The four adapters run one after the other, each to its end, whatever
    the ones before it did. *)
Lemma sequential_trace :
  trace net (Sequential.fetchLatestData host) =
  trace net (adapterFn host BlockInfo) ++
  trace net (adapterFn host BtcMetrics) ++
  trace net (adapterFn host PriceData) ++
  trace net (adapterFn host FearGreed).
Proof.
  unfold Sequential.fetchLatestData.
  rewrite trace_tryCatch, sequential_body_result, app_nil_r.
  change (fetchLatestBlockInfo host) with (adapterFn host BlockInfo).
  change (fetchBtcMetrics host) with (adapterFn host BtcMetrics).
  change (fetchPriceData host) with (adapterFn host PriceData).
  change (fetchFearGreedIndex host) with (adapterFn host FearGreed).
  rewrite !trace_bind.
  rewrite (adapterFn_result host net BlockInfo).
  rewrite (adapterFn_result host net BtcMetrics).
  rewrite (adapterFn_result host net PriceData).
  reflexivity.
Qed.

Lemma sequential_error (s : AppState) :
  error (snd (exec net (Sequential.fetchLatestData host) s)) =
  match lastFailure host net allAdapters with
  | Some e => message e
  | None => error s
  end.
Proof.
  unfold exec. cbn [snd]. rewrite sequential_trace, !applyAll_app.
  pose proof (fun a s => adapterFn_error host net a s) as H.
  unfold exec in H. cbn [snd] in H. rewrite !H.
  unfold allAdapters. cbn [lastFailure].
  destruct (failure host net FearGreed), (failure host net PriceData),
    (failure host net BtcMetrics), (failure host net BlockInfo); reflexivity.
Qed.

Lemma sequential_snapshot (a : Adapter) (s : AppState) :
  snapshot a (snd (exec net (Sequential.fetchLatestData host) s)) =
  snapshot a (snd (exec net (adapterFn host a) s)).
Proof.
  unfold exec. cbn [snd]. rewrite sequential_trace, !applyAll_app.
  assert (Hskip : forall b s', a <> b ->
            snapshot a (applyAll (trace net (adapterFn host b)) s') =
            snapshot a s').
  { intros b s' Hne. apply snapshot_applyAll_other.
    eapply Forall_impl; [|apply callsIn_trace, adapterFn_allowed].
    intros u [Hu | Hu]; congruence. }
  destruct a.
  - rewrite !Hskip by discriminate. reflexivity.
  - rewrite !Hskip by discriminate. apply snapshot_congr.
    now rewrite Hskip by discriminate.
  - rewrite !Hskip by discriminate. apply snapshot_congr.
    now rewrite !Hskip by discriminate.
  - apply snapshot_congr. now rewrite !Hskip by discriminate.
Qed.

End SequentialFacts.

(** ** The price series *)

Lemma Array_slice_last {A} (n : nat) (l : list A) :
  Array_slice (- Z.of_nat (S n)) l = skipn (length l - S n) l.
Proof.
  unfold Array_slice.
  replace (- Z.of_nat (S n) <? 0)%Z with true
    by (symmetry; apply Z.ltb_lt; lia).
  f_equal. lia.
Qed.

(** The tail of given length of a list is determined by the list. *)
Lemma suffix_determined {A} (l older recent : list A) :
  l = older ++ recent ->
  length recent = Nat.min (length l) 24 ->
  recent = skipn (length l - Nat.min (length l) 24) l.
Proof.
  intros Hsplit Hlength. rewrite <- Hlength. subst l.
  rewrite length_app.
  replace (length older + length recent - length recent)
    with (length older + 0) by lia.
  rewrite skipn_app, Nat.add_0_r.
  replace (length older - length older) with 0 by lia.
  rewrite skipn_all. reflexivity.
Qed.

Lemma mapM_hourLabel (host : Host) (points : list (float * float)) :
  mapM (hourLabel host) (map rawPoint points) =
  inr (map (fun p => JStr (localHourLabel host (fst p))) points).
Proof.
  induction points as [|p rest IH]; [reflexivity|].
  cbn [map mapM]. rewrite IH. reflexivity.
Qed.

Lemma mapM_pointPrice (host : Host) (points : list (float * float)) :
  mapM (pointPrice host) (map rawPoint points) =
  inr (map (fun p => JNum (snd p)) points).
Proof.
  induction points as [|p rest IH]; [reflexivity|].
  cbn [map mapM]. rewrite IH. reflexivity.
Qed.

(** ** The refresh timer *)

Section TimerFacts.

Local Open Scope N_scope.

Lemma next_quotient (n q r q1 r1 : N) :
  n = 60000 * q + r -> r < 60000 ->
  n + 1 = 60000 * q1 + r1 -> r1 < 60000 ->
  (r1 <> 0 -> q1 = q) /\ (r1 = 0 -> q1 = q + 1).
Proof. lia. Qed.

Lemma firings_same (n : N) :
  (n + 1) mod Timer.refreshIntervalMs <> 0 ->
  (n + 1) / Timer.refreshIntervalMs = n / Timer.refreshIntervalMs.
Proof.
  intros H. unfold Timer.refreshIntervalMs in *.
  assert (Hnz : 60000 <> 0) by lia.
  apply (@next_quotient n (n / 60000) (n mod 60000)
           ((n + 1) / 60000) ((n + 1) mod 60000)
           (N.div_mod n 60000 Hnz) (N.mod_lt n 60000 Hnz)
           (N.div_mod (n + 1) 60000 Hnz) (N.mod_lt (n + 1) 60000 Hnz)).
  exact H.
Qed.

Lemma firings_next (n : N) :
  (n + 1) mod Timer.refreshIntervalMs = 0 ->
  (n + 1) / Timer.refreshIntervalMs = n / Timer.refreshIntervalMs + 1
  /\ n + 1 = Timer.refreshIntervalMs * (n / Timer.refreshIntervalMs + 1).
Proof.
  intros H. unfold Timer.refreshIntervalMs in *.
  assert (Hnz : 60000 <> 0) by lia.
  assert (Hq : (n + 1) / 60000 = n / 60000 + 1).
  { apply (@next_quotient n (n / 60000) (n mod 60000)
             ((n + 1) / 60000) ((n + 1) mod 60000)
             (N.div_mod n 60000 Hnz) (N.mod_lt n 60000 Hnz)
             (N.div_mod (n + 1) 60000 Hnz) (N.mod_lt (n + 1) 60000 Hnz)).
    exact H. }
  split; [exact Hq|].
  pose proof (N.div_mod (n + 1) 60000 Hnz) as Hn1.
  rewrite H, Hq in Hn1. rewrite Hn1 at 1. apply N.add_0_r.
Qed.

Lemma due_iff (n : N) :
  n + 1 = Timer.refreshIntervalMs * (n / Timer.refreshIntervalMs + 1) ->
  (n + 1) mod Timer.refreshIntervalMs = 0.
Proof.
  intros H. unfold Timer.refreshIntervalMs in *.
  rewrite H, N.mul_comm. apply N.Div0.mod_mul.
Qed.

(** While the timer runs: after [n] milliseconds it has fired at every
    multiple of the period up to [n], and is set for the next one. *)
Lemma elapse_running (t0 n : N) :
  Timer.elapse n
    (Timer.mkWindow t0 2
       [Timer.mkInterval 1 Timer.refreshIntervalMs
          (t0 + Timer.refreshIntervalMs)] [t0]) =
  Timer.mkWindow (t0 + n) 2
    [Timer.mkInterval 1 Timer.refreshIntervalMs
       (t0 + Timer.refreshIntervalMs * (n / Timer.refreshIntervalMs + 1))]
    (t0 :: Timer.firings t0 n).
Proof.
  unfold Timer.elapse. induction n as [|n IH] using N.peano_ind.
  - cbn [N.iter]. rewrite N.add_0_r. reflexivity.
  - rewrite N.iter_succ, IH. clear IH. unfold Timer.tick.
    cbn [Timer.now Timer.intervals Timer.invoked Timer.nextId fold_left].
    unfold Timer.fire. cbn [Timer.due Timer.intervalId Timer.delay].
    rewrite <- N.add_1_r, <- N.add_assoc. unfold Timer.firings.
    destruct (N.eq_dec ((n + 1) mod Timer.refreshIntervalMs) 0)
      as [Hmod | Hmod].
    + destruct (firings_next n Hmod) as [Hq Hn]. rewrite Hq.
      replace (N.to_nat (n / Timer.refreshIntervalMs + 1))
        with (S (N.to_nat (n / Timer.refreshIntervalMs))) by lia.
      rewrite seq_S, map_app. cbn [map].
      rewrite <- Hn, N.eqb_refl. cbn [fst snd app].
      replace (N.of_nat (1 + N.to_nat (n / Timer.refreshIntervalMs)))
        with (n / Timer.refreshIntervalMs + 1) by lia.
      rewrite <- Hn.
      replace (Timer.refreshIntervalMs *
               (n / Timer.refreshIntervalMs + 1 + 1))
        with (n + 1 + Timer.refreshIntervalMs).
      * now rewrite (N.add_assoc t0 (n + 1)).
      * rewrite (N.mul_add_distr_l _ _ 1), <- Hn, N.mul_1_r. reflexivity.
    + rewrite (firings_same n Hmod).
      destruct (N.eqb_spec
                  (t0 + Timer.refreshIntervalMs *
                          (n / Timer.refreshIntervalMs + 1))
                  (t0 + (n + 1))) as [Hdue | Hdue].
      * exfalso. apply Hmod, due_iff.
        apply N.add_cancel_l in Hdue. now symmetry.
      * reflexivity.
Qed.

(** With no timer set, time passes and nothing is invoked. *)
Lemma elapse_stopped (n t id : N) (calls : list N) :
  Timer.elapse n (Timer.mkWindow t id [] calls) =
  Timer.mkWindow (t + n) id [] calls.
Proof.
  unfold Timer.elapse. induction n as [|n IH] using N.peano_ind.
  - cbn [N.iter]. now rewrite N.add_0_r.
  - rewrite N.iter_succ, IH. unfold Timer.tick.
    cbn [Timer.now Timer.intervals Timer.invoked Timer.nextId fold_left
         fst snd].
    now rewrite <- N.add_1_r, N.add_assoc.
Qed.

End TimerFacts.

(** ** Promises advance on their own *)

Section Independence.

Variable host : Host.
Variable net : Network.
Variable s0 : AppState.

Lemma advance_settled {A} (m : Async A) :
  isSettled m = true -> advance net m = m.
Proof. destruct m; simpl; auto; discriminate. Qed.

Lemma iter_advance_shift {A} (k : nat) (m : Async A) :
  Nat.iter k (advance net) (advance net m) =
  advance net (Nat.iter k (advance net) m).
Proof. induction k as [|k IH]; simpl; auto. now rewrite IH. Qed.

(** A turn of slot [i] advances the promise in that slot and leaves the
    other three promises as they are. *)
Lemma task_resumeAt (c : App.Cycle) (i : nat) (b : Adapter) :
  CycleInv host net s0 c ->
  task (App.resumeAt net c i) b =
  if Nat.eq_dec i (App.slot b) then advance net (task c b) else task c b.
Proof.
  intros Hc. destruct (Nat.eq_dec i (App.slot b)) as [-> | Hne].
  - pose proof (task_nth_error c b (inv_length Hc)) as Hn.
    destruct (isSettled (task c b)) eqn:Es.
    + rewrite (resumeAt_settled _ _ _ Hn Es). now rewrite advance_settled.
    + rewrite (resumeAt_unsettled _ _ _ Hn Es). cbv zeta.
      rewrite task_replaced by apply (inv_length Hc).
      destruct (Adapter_eq_dec b b); [reflexivity | congruence].
  - apply other_resumeAt with (host := host) (s0 := s0); auto.
    intros Hi. apply adapterAt_some in Hi. congruence.
Qed.

(** Where a promise stands depends on the number of answers it has had
    itself, and on nothing else. *)
Lemma task_run (schedule : list nat) (b : Adapter) : forall c,
  CycleInv host net s0 c ->
  task (App.run net schedule c) b =
  Nat.iter (count_occ Nat.eq_dec schedule (App.slot b)) (advance net)
    (task c b).
Proof.
  induction schedule as [|i rest IH]; intros c Hc; [reflexivity|].
  change (App.run net (i :: rest) c)
    with (App.run net rest (App.resumeAt net c i)).
  rewrite IH by now apply CycleInv_resumeAt.
  rewrite task_resumeAt by assumption. cbn [count_occ].
  destruct (Nat.eq_dec i (App.slot b)); [|reflexivity].
  rewrite iter_advance_shift. reflexivity.
Qed.

Lemma Guarded_fulfilled (a : Adapter) (m : Async unit) :
  Guarded host net a m -> isFulfilled m = isSettled m.
Proof.
  intros [-> | (b & -> & Hs & _)]; [reflexivity|].
  destruct b; simpl in *; auto; discriminate.
Qed.

Lemma sequential_turns :
  Sequential.turns net 8 (Sequential.start host s0) =
  (Ret tt, snd (exec net (Sequential.fetchLatestData host) s0)).
Proof.
  unfold Sequential.turns, Sequential.start.
  rewrite turns_reach_end.
  - unfold Sequential.fetchLatestData. rewrite result_guard. reflexivity.
  - apply awaitsAtMost_stepsLeft. unfold Sequential.fetchLatestData.
    apply awaitsAtMost_tryCatch; [|intros e; exact I].
    pose proof (adapterFn_awaits host) as H.
    apply (awaitsAtMost_bind _ _ 2 6); [apply (H BlockInfo)|intros _].
    apply (awaitsAtMost_bind _ _ 2 4); [apply (H BtcMetrics)|intros _].
    apply (awaitsAtMost_bind _ _ 2 2); [apply (H PriceData)|intros _].
    apply (H FearGreed).
Qed.

End Independence.

(* ================================================================== *)
(** * The claims *)
(* ================================================================== *)

(** C1.  When an adapter's fetch fails (its [try] block throws, whatever
    the cause: network failure, error status, a body that is not JSON, a
    payload of the wrong shape), the cells of every other adapter keep
    the values they had before that failure was merged.  This holds for
    the turn of the failing adapter at any point of a [Promise.all]
    cycle, and for the adapter run on its own as in the sequential
    variant. *)
Theorem C1_failing_adapter_keeps_other_cells
    (host : Host) (net : Network) (s0 : AppState) (schedule : list nat)
    (a b : Adapter) (e : Error) :
  failure host net a = Some e ->
  a <> b ->
  snapshot b
    (App.state
       (App.resumeAt net (App.run net schedule (App.start host s0))
          (App.slot a))) =
  snapshot b (App.state (App.run net schedule (App.start host s0)))
  /\ (forall s, snapshot b (snd (exec net (adapterFn host a) s)) =
                snapshot b s).
Proof.
  intros _ Hne.
  assert (Hother : forall calls s, Forall (allowed a) calls ->
                     snapshot b (applyAll calls s) = snapshot b s).
  { intros calls s H. apply snapshot_applyAll_other.
    eapply Forall_impl; [|exact H]. intros u [Hu | Hu]; congruence. }
  split.
  - pose proof (CycleInv_run schedule (CycleInv_start host net s0)) as Hc.
    destruct (resumeAt_calls a Hc) as (calls & -> & Hcalls).
    now apply Hother.
  - intros s. unfold exec. cbn [snd]. apply Hother.
    apply callsIn_trace, adapterFn_allowed.
Qed.

Lemma C1_witness :
  snapshot BtcMetrics
    (App.state
       (App.resumeAt Samples.blockDown
          (App.run Samples.blockDown [1; 1]
             (App.start Samples.host initialState))
          (App.slot BlockInfo))) =
  snapshot BtcMetrics
    (App.state
       (App.run Samples.blockDown [1; 1]
          (App.start Samples.host initialState)))
  /\ (forall s,
        snapshot BtcMetrics
          (snd (exec Samples.blockDown
                  (adapterFn Samples.host BlockInfo) s)) =
        snapshot BtcMetrics s).
Proof.
  apply (@C1_failing_adapter_keeps_other_cells Samples.host
           Samples.blockDown initialState [1; 1] BlockInfo BtcMetrics
           (mkError "Failed to fetch latest block info")).
  - vm_compute. reflexivity.
  - discriminate.
Defined.

(** C2.  [fetchLatestData] never raises past its own boundary, whatever
    the four fetches do.  Sequential variant: its promise is fulfilled,
    and eight turns of the event loop bring it to its end.  [Promise.all]
    variant: under every schedule no promise of the array is rejected and
    the join is never rejected; it is fulfilled as soon as every slot has
    had its answers.  A failure of an adapter ends up as the text in
    [error]. *)
Theorem C2_fetchLatestData_never_raises
    (host : Host) (net : Network) (s0 : AppState) :
  result net (Sequential.fetchLatestData host) = inr tt
  /\ Sequential.turns net 8 (Sequential.start host s0) =
     (Ret tt, snd (exec net (Sequential.fetchLatestData host) s0))
  /\ (forall schedule,
        App.firstRejection
          (App.promises (App.run net schedule (App.start host s0))) = None
        /\ (App.joined (App.run net schedule (App.start host s0)) = Fulfilled
            \/ (App.joined (App.run net schedule (App.start host s0)) = Pending
                /\ answersAll schedule = false)))
  /\ (forall a s,
        error (snd (exec net (adapterFn host a) s)) =
        match failure host net a with
        | Some e => message e
        | None => error s
        end).
Proof.
  split; [apply result_guard|]. split; [|split].
  - apply sequential_turns.
  - intros schedule.
    pose proof (CycleInv_run schedule (CycleInv_start host net s0)) as Hc.
    split.
    + rewrite (promises_four _ (inv_length Hc)). simpl.
      now rewrite !(Guarded_not_rejected (inv_guarded Hc _)).
    + destruct (answersAll schedule) eqn:Hall.
      * left. rewrite (inv_joined Hc), (promises_four _ (inv_length Hc)).
        now rewrite !answered_tasks by assumption.
      * rewrite (inv_joined Hc).
        destruct (forallb isFulfilled _); auto.
  - intros a s. apply adapterFn_error.
Qed.

(** C3, as the code has it.  After a cycle the [error] cell holds the
    message of the last failure of that cycle (the failure of the adapter
    that settled last among those that failed; in the sequential variant
    the order is block, market, prices, sentiment), and nothing is
    accumulated.  When no adapter failed in the cycle, the cell keeps the
    value it had before the cycle: no call of [setError] ever clears it,
    so a message of an earlier cycle stays on display.  Once every slot
    has had its answers the settle order lists all four adapters. *)
Theorem C3_last_failure_wins_and_success_keeps_error
    (host : Host) (net : Network) (s0 : AppState) (schedule : list nat) :
  error (App.state (App.run net schedule (App.start host s0))) =
  match lastFailure host net
          (Settle.order net schedule (App.start host s0)) with
  | Some e => message e
  | None => error s0
  end
  /\ (answersAll schedule = false
      \/ Permutation allAdapters
           (Settle.order net schedule (App.start host s0)))
  /\ error (snd (exec net (Sequential.fetchLatestData host) s0)) =
     match lastFailure host net allAdapters with
     | Some e => message e
     | None => error s0
     end.
Proof.
  pose proof (CycleInv_start host net s0) as H0.
  split; [|split].
  - now rewrite (run_error schedule H0).
  - destruct (answersAll schedule) eqn:Hall; [right | now left].
    destruct (order_spec schedule H0) as [Hnd Hin].
    apply NoDup_Permutation; auto.
    + repeat constructor; simpl; intuition discriminate.
    + intros a. split; [intros _ | destruct a; simpl; auto].
      apply Hin. split.
      * destruct a; reflexivity.
      * now rewrite answered_tasks.
  - apply sequential_error.
Qed.

(** C3 as stated fails: a first cycle in which the block endpoint answers
    with an error status, then a second cycle in which all four adapters
    succeed.  After the second cycle the page still shows the message of
    the first. *)
Lemma C3_counterexample :
  map (failure Samples.host Samples.allUp) allAdapters =
    [None; None; None; None]
  /\ failure Samples.host Samples.blockDown BlockInfo =
       Some (mkError "Failed to fetch latest block info")
  /\ App.joined
       (App.run Samples.allUp Samples.schedule
          (App.start Samples.host
             (App.state
                (App.run Samples.blockDown Samples.schedule
                   (App.start Samples.host initialState))))) = Fulfilled
  /\ error
       (App.state
          (App.run Samples.allUp Samples.schedule
             (App.start Samples.host
                (App.state
                   (App.run Samples.blockDown Samples.schedule
                      (App.start Samples.host initialState)))))) =
     "Failed to fetch latest block info".
Proof. vm_compute. repeat split. Qed.

(** C4, at the input where the code departs from it.  The market payload
    has [market_data.current_price.usd] but no
    [market_data.total_volume]: [setBtcPrice] has already been called
    when reading [total_volume.usd] throws, so [btcPrice] holds the new
    price while [btcMetrics] and every other cell keep their values and
    [error] holds the engine's message.  In a first cycle this leaves
    [btcPrice] set next to [btcMetrics = null], and the market section of
    the page, which reads [btcMetrics] whenever [btcPrice] is not [null],
    throws. *)
Theorem C4_price_is_set_before_volume_is_read
    (host : Host) (s : AppState) :
  failure host Samples.noVolume BtcMetrics =
    Some (mkError (msgCannotRead host JUndefined "usd"))
  /\ snd (exec Samples.noVolume (fetchBtcMetrics host) s) =
     mkAppState (blockInfo s) (blockHeight s) (JNum 50000) (btcMetrics s)
       (priceData s) (fearGreedIndex s) (msgCannotRead host JUndefined "usd")
  /\ renderMarketData host
       (snd (exec Samples.noVolume (fetchBtcMetrics host) initialState)) =
     inl (mkError (msgCannotRead host JNull "marketCap")).
Proof. repeat split. Qed.

(** C5.  When the market-chart endpoint answers with a raw series of
    [(timestamp, price)] pairs, the price adapter stores a chart computed,
    in the original order, from the trailing entries of the series: the
    series splits into older entries and the recent ones kept; there are
    [min L 24] recent ones, so exactly 24 when [L >= 24] and the whole
    series, unpadded, when [L < 24].  The stored object has two
    properties: [labels], the array that holds for each recent entry the
    decimal numeral of the local hour of its timestamp ([NaN] for an
    invalid date) followed by [":00"], and [datasets], an array of one
    object whose [data] is the array of the recent entries' prices, next
    to the fixed [label], [borderColor], [backgroundColor] and [fill]. *)
Theorem C5_price_series_keeps_trailing_24
    (host : Host) (net : Network) (s : AppState)
    (points : list (float * float)) (resp : Response)
    (props : list (string * JsValue)) :
  net priceDataUrl = inr resp ->
  ok resp = true ->
  json resp = inr (JObj props) ->
  lookup "prices" props = JArr (map rawPoint points) ->
  exists older recent,
    points = older ++ recent
    /\ length recent = Nat.min (length points) 24
    /\ (24 <= length points -> length recent = 24)
    /\ (length points < 24 -> recent = points)
    /\ priceData (snd (exec net (fetchPriceData host) s)) =
       JObj
         [("labels",
           JArr (map (fun p =>
                        JStr (match Date_getHours host (JNum (fst p)) with
                              | Some h =>
                                  NilEmpty.string_of_uint (Nat.to_uint h)
                              | None => "NaN"
                              end ++ ":00"))
                   recent));
          ("datasets",
           JArr [JObj [("label", JStr "Bitcoin Price (USD)");
                       ("data", JArr (map (fun p => JNum (snd p)) recent));
                       ("borderColor", JStr "rgba(75, 192, 192, 1)");
                       ("backgroundColor", JStr "rgba(75, 192, 192, 0.2)");
                       ("fill", JBool true)]])].
Proof.
  intros Hnet Hok Hjson Hprices.
  exists (firstn (length points - 24) points),
         (skipn (length points - 24) points).
  split; [symmetry; apply firstn_skipn|].
  split; [rewrite length_skipn; lia|].
  split; [intros H; rewrite length_skipn; lia|].
  split.
  { intros H. replace (length points - 24) with 0 by lia. reflexivity. }
  unfold exec, fetchPriceData, fetchPriceData_try. cbn [snd].
  simpl. rewrite Hnet. simpl. rewrite Hok. simpl. rewrite Hjson. simpl.
  rewrite Hprices. simpl.
  rewrite mapM_hourLabel, mapM_pointPrice. simpl.
  change (-24)%Z with (- Z.of_nat 24)%Z.
  rewrite !Array_slice_last, !length_map, <- !skipn_map. reflexivity.
Qed.

Lemma C5_witness :
  priceData
    (snd (exec Samples.allUp (fetchPriceData Samples.host) initialState)) =
  JObj
    [("labels",
      JArr (map JStr
              ["4:00"; "5:00"; "6:00"; "7:00"; "8:00"; "9:00"; "10:00";
               "11:00"; "12:00"; "13:00"; "14:00"; "15:00"; "16:00";
               "17:00"; "18:00"; "19:00"; "20:00"; "21:00"; "22:00";
               "23:00"; "0:00"; "1:00"; "2:00"; "3:00"]));
     ("datasets",
      JArr [JObj [("label", JStr "Bitcoin Price (USD)");
                  ("data",
                   JArr (map JNum
                           [43006; 43007; 43008; 43009; 43010; 43011;
                            43012; 43013; 43014; 43015; 43016; 43017;
                            43018; 43019; 43020; 43021; 43022; 43023;
                            43024; 43025; 43026; 43027; 43028;
                            43029]%float));
                  ("borderColor", JStr "rgba(75, 192, 192, 1)");
                  ("backgroundColor", JStr "rgba(75, 192, 192, 0.2)");
                  ("fill", JBool true)]])]
  /\ priceData
       (snd (exec Samples.shortChart (fetchPriceData Samples.host)
               initialState)) =
     JObj
       [("labels", JArr [JStr "22:00"; JStr "23:00"; JStr "0:00"]);
        ("datasets",
         JArr [JObj [("label", JStr "Bitcoin Price (USD)");
                     ("data",
                      JArr [JNum 43000; JNum 43001; JNum 43002]);
                     ("borderColor", JStr "rgba(75, 192, 192, 1)");
                     ("backgroundColor", JStr "rgba(75, 192, 192, 0.2)");
                     ("fill", JBool true)]])].
Proof.
  split.
  - destruct (@C5_price_series_keeps_trailing_24 Samples.host Samples.allUp
                initialState (Samples.series 30)
                (mkResponse true (inr (marketChartJson (Samples.series 30))))
                [("prices", JArr (map rawPoint (Samples.series 30)))]
                eq_refl eq_refl eq_refl eq_refl)
      as (older & recent & Hsplit & Hlength & _ & _ & Hchart).
    rewrite Hchart.
    rewrite (suffix_determined _ _ Hsplit Hlength).
    reflexivity.
  - destruct (@C5_price_series_keeps_trailing_24 Samples.host
                Samples.shortChart
                initialState (Samples.series 3)
                (mkResponse true (inr (marketChartJson (Samples.series 3))))
                [("prices", JArr (map rawPoint (Samples.series 3)))]
                eq_refl eq_refl eq_refl eq_refl)
      as (older & recent & _ & _ & _ & Hwhole & Hchart).
    rewrite Hchart.
    rewrite (Hwhole ltac:(vm_compute; lia)).
    reflexivity.
Defined.

(** C6.  [getEmojiForClassification] is total on strings: a string is one
    of the five known classifications and has a non-empty glyph, or it is
    none of them and has the empty glyph; the five glyphs are pairwise
    distinct. *)
Theorem C6_glyph_mapping_total :
  (forall s : string,
      (In s knownClassifications
       /\ getEmojiForClassification (JStr s) <> "")
      \/ (~ In s knownClassifications
          /\ getEmojiForClassification (JStr s) = ""))
  /\ NoDup (map (fun s => getEmojiForClassification (JStr s))
              knownClassifications)
  /\ map (fun s => getEmojiForClassification (JStr s)) knownClassifications
     = ["🙀"; "😨"; "😐"; "🤑"; "😈"].
Proof.
  split; [|split].
  - intros s. unfold getEmojiForClassification, knownClassifications.
    destruct (String.eqb_spec s "Extreme Fear") as [-> | H1];
      [left; split; [simpl; auto | discriminate]|].
    destruct (String.eqb_spec s "Fear") as [-> | H2];
      [left; split; [simpl; auto | discriminate]|].
    destruct (String.eqb_spec s "Neutral") as [-> | H3];
      [left; split; [simpl; auto | discriminate]|].
    destruct (String.eqb_spec s "Greed") as [-> | H4];
      [left; split; [simpl; auto | discriminate]|].
    destruct (String.eqb_spec s "Extreme Greed") as [-> | H5];
      [left; split; [simpl; auto 6 | discriminate]|].
    right. split; [|reflexivity]. simpl. intuition congruence.
  - simpl. repeat constructor; simpl; intuition discriminate.
  - reflexivity.
Qed.

(** C7, as the code has it.  A successful run of the sentiment adapter
    stores, unchecked, the [value] and [value_classification] properties
    of the first element of the response's [data]: the stored value is an
    integer from 0 to 100 and the stored classification one of the five
    known ones exactly when the response has them so. *)
Theorem C7_sentiment_is_stored_as_received
    (host : Host) (net : Network) (s : AppState) :
  failure host net FearGreed = None ->
  exists resp data indexData value classification,
    net fearGreedUrl = inr resp
    /\ ok resp = true
    /\ json resp = inr data
    /\ ebind (getProp host data "data") (fun d => getIndex host d 0) =
       inr indexData
    /\ getProp host indexData "value" = inr value
    /\ getProp host indexData "value_classification" = inr classification
    /\ fearGreedIndex (snd (exec net (fetchFearGreedIndex host) s)) =
       JObj [("value", value); ("classification", classification)].
Proof.
  unfold failure, exec, fetchFearGreedIndex. cbn [snd adapterTry].
  unfold fetchFearGreedIndex_try. simpl.
  destruct (net fearGreedUrl) as [e | resp] eqn:Hnet; simpl;
    [discriminate|].
  destruct (ok resp) eqn:Hok; simpl; [|discriminate].
  destruct (json resp) as [e | data] eqn:Hjson; simpl; [discriminate|].
  destruct (ebind (getProp host data "data") (fun d => getIndex host d 0))
    as [e | indexData] eqn:Hindex; simpl; [discriminate|].
  destruct (getProp host indexData "value") as [e | value] eqn:Hvalue;
    simpl; [discriminate|].
  destruct (getProp host indexData "value_classification")
    as [e | classification] eqn:Hclass; simpl; [discriminate|].
  intros _. exists resp, data, indexData, value, classification.
  repeat split; auto.
Qed.

Lemma C7_witness :
  exists resp data indexData value classification,
    Samples.allUp fearGreedUrl = inr resp
    /\ ok resp = true
    /\ json resp = inr data
    /\ ebind (getProp Samples.host data "data")
         (fun d => getIndex Samples.host d 0) = inr indexData
    /\ getProp Samples.host indexData "value" = inr value
    /\ getProp Samples.host indexData "value_classification" =
       inr classification
    /\ fearGreedIndex
         (snd (exec Samples.allUp (fetchFearGreedIndex Samples.host)
                 initialState)) =
       JObj [("value", value); ("classification", classification)].
Proof.
  apply (@C7_sentiment_is_stored_as_received Samples.host Samples.allUp
           initialState).
  reflexivity.
Defined.

(** C7 as stated fails: the sentiment endpoint answers with the value 150
    and the classification "Euphoria"; the adapter succeeds and stores
    both. *)
Lemma C7_counterexample :
  failure Samples.host Samples.oddSentiment FearGreed = None
  /\ fearGreedIndex
       (snd (exec Samples.oddSentiment (fetchFearGreedIndex Samples.host)
               initialState)) =
     JObj [("value", JNum 150); ("classification", JStr "Euphoria")]
  /\ isIntegerPercent (JNum 150) = false
  /\ isKnownClassification (JStr "Euphoria") = false
  /\ isIntegerPercent (JNum 45) = true
  /\ isKnownClassification (JStr "Fear") = true.
Proof. vm_compute. repeat split. Qed.

(** C8.  The effect invokes [fetchLatestData] once at the moment it runs;
    while the timer is set, the invocations after [ms] milliseconds are
    that first one and one at every multiple of the 60000 ms period up to
    [ms]; after the cleanup ([clearInterval]) no time that passes adds an
    invocation. *)
Theorem C8_refresh_schedule (t0 ms later : N) :
  Timer.invoked (fst (Timer.useEffect (Timer.freshWindow t0))) = [t0]
  /\ Timer.invoked
       (Timer.elapse ms (fst (Timer.useEffect (Timer.freshWindow t0)))) =
     t0 :: Timer.firings t0 ms
  /\ Timer.invoked
       (Timer.elapse later
          (snd (Timer.useEffect (Timer.freshWindow t0))
             (Timer.elapse ms
                (fst (Timer.useEffect (Timer.freshWindow t0)))))) =
     Timer.invoked
       (Timer.elapse ms (fst (Timer.useEffect (Timer.freshWindow t0)))).
Proof.
  assert (Hmount : Timer.useEffect (Timer.freshWindow t0) =
            (Timer.mkWindow t0 2
               [Timer.mkInterval 1 Timer.refreshIntervalMs
                  (t0 + Timer.refreshIntervalMs)%N] [t0],
             Timer.clearInterval 1)) by reflexivity.
  rewrite Hmount. cbn [fst snd]. split; [reflexivity|].
  rewrite elapse_running. split; [reflexivity|].
  unfold Timer.clearInterval. cbn [Timer.now Timer.nextId Timer.intervals
    Timer.invoked Timer.intervalId filter]. rewrite N.eqb_refl. cbn [negb].
  now rewrite elapse_stopped.
Qed.

(** C9, as the code has it.  In the [Promise.all] variant the four
    adapters are in flight together from the start of the cycle; the join
    is fulfilled exactly when all four promises have settled and is
    pending until then; a turn of one adapter advances that adapter's
    promise and leaves the other three as they are, so that where a
    promise stands depends only on the answers it has had itself: no
    adapter waits for, or is cancelled by, a sibling.  In the sequential
    variant one request is in flight at the start, that of the block
    adapter; the adapters run one after the other, each to its end
    whatever the ones before it did, and eight turns complete the
    cycle. *)
Theorem C9_fan_out_join_and_sequential_order
    (host : Host) (net : Network) (s0 : AppState) (schedule : list nat)
    (a b : Adapter) :
  map pendingFetch (App.promises (App.start host s0)) =
    map (fun x => Some (adapterUrl x)) allAdapters
  /\ App.joined (App.run net schedule (App.start host s0)) =
     (if forallb isSettled
           (App.promises (App.run net schedule (App.start host s0)))
      then Fulfilled else Pending)
  /\ task (App.resumeAt net (App.run net schedule (App.start host s0))
             (App.slot a)) b =
     (if Adapter_eqb a b
      then advance net (task (App.run net schedule (App.start host s0)) b)
      else task (App.run net schedule (App.start host s0)) b)
  /\ task (App.run net schedule (App.start host s0)) b =
     Nat.iter (count_occ Nat.eq_dec schedule (App.slot b)) (advance net)
       (adapterFn host b)
  /\ pendingFetch (fst (Sequential.start host s0)) = Some blockInfoUrl
  /\ trace net (Sequential.fetchLatestData host) =
     trace net (adapterFn host BlockInfo) ++
     trace net (adapterFn host BtcMetrics) ++
     trace net (adapterFn host PriceData) ++
     trace net (adapterFn host FearGreed)
  /\ Sequential.turns net 8 (Sequential.start host s0) =
     (Ret tt, snd (exec net (Sequential.fetchLatestData host) s0)).
Proof.
  pose proof (CycleInv_start host net s0) as H0.
  pose proof (CycleInv_run schedule H0) as Hc.
  split; [reflexivity|]. split; [|split; [|split; [|split; [|split]]]].
  - rewrite (inv_joined Hc), (promises_four _ (inv_length Hc)).
    cbn [forallb].
    now rewrite !(Guarded_fulfilled (inv_guarded Hc _)).
  - rewrite (task_resumeAt _ b Hc).
    destruct a, b; simpl; reflexivity.
  - rewrite (task_run schedule b H0). f_equal. destruct b; reflexivity.
  - reflexivity.
  - apply sequential_trace.
  - apply sequential_turns.
Qed.

(** C9 as stated fails on the sequential variant: at the start of its
    cycle the only request in flight is the block adapter's; after the
    block response has arrived the function waits for its body, and only
    after that body has been handled is the market request issued.  The
    [Promise.all] variant has all four requests in flight at the start. *)
Lemma C9_counterexample :
  pendingFetch (fst (Sequential.start Samples.host initialState)) =
    Some blockInfoUrl
  /\ pendingFetch
       (fst (Sequential.turns Samples.allUp 1
               (Sequential.start Samples.host initialState))) = None
  /\ isSettled
       (fst (Sequential.turns Samples.allUp 1
               (Sequential.start Samples.host initialState))) = false
  /\ pendingFetch
       (fst (Sequential.turns Samples.allUp 2
               (Sequential.start Samples.host initialState))) =
     Some btcMetricsUrl
  /\ map pendingFetch (App.promises (App.start Samples.host initialState)) =
     [Some blockInfoUrl; Some btcMetricsUrl; Some priceDataUrl;
      Some fearGreedUrl].
Proof. vm_compute. repeat split. Qed.

(** C10.  For the same four fetch results, the sequential variant and the
    [Promise.all] variant, the latter under any schedule that gives every
    slot its answers, leave the cells of each adapter with the same final
    values. *)
Theorem C10_variants_agree_on_snapshots
    (host : Host) (net : Network) (s0 : AppState) (schedule : list nat)
    (a : Adapter) :
  answersAll schedule = true ->
  snapshot a (App.state (App.run net schedule (App.start host s0))) =
  snapshot a (snd (Sequential.turns net 8 (Sequential.start host s0))).
Proof.
  intros Hall.
  rewrite sequential_turns. cbn [snd]. rewrite sequential_snapshot.
  pose proof (CycleInv_run schedule (CycleInv_start host net s0)) as Hc.
  pose proof (inv_snapshot Hc a) as Hs.
  rewrite answered_tasks in Hs by assumption. exact Hs.
Qed.

Lemma C10_witness :
  snapshot BtcMetrics
    (App.state
       (App.run Samples.twoDown Samples.schedule
          (App.start Samples.host initialState))) =
  snapshot BtcMetrics
    (snd (Sequential.turns Samples.twoDown 8
            (Sequential.start Samples.host initialState))).
Proof.
  apply (@C10_variants_agree_on_snapshots Samples.host Samples.twoDown
           initialState Samples.schedule BtcMetrics).
  reflexivity.
Defined.

(* ================================================================== *)
(** * Further properties of the adapters and the cycle *)
(* ================================================================== *)

Lemma getProp_truthy (host : Host) (v : JsValue) (name : string) (e : Error) :
  truthy v = true -> getProp host v name <> inl e.
Proof. destruct v; simpl; intros H; discriminate. Qed.

(** Case analysis along an adapter: on the settlement of the promise it
    awaits next, or on the expression it evaluates next. *)
Ltac next_case :=
  match goal with
  | |- context [settled ?x] => destruct x eqn:?
  | |- context [eval ?x] => destruct x eqn:?
  | |- context [when_ (negb ?b)] => destruct b eqn:?
  | |- context [if truthy ?v then _ else _] => destruct (truthy v) eqn:?
  end; simpl.

Ltac impossible_read :=
  match goal with
  | Ht : truthy ?v = true, Hg : getProp _ ?v _ = inl _ |- _ =>
      exfalso; exact (getProp_truthy _ _ _ Ht Hg)
  end.

Ltac along_adapter :=
  unfold failure, exec, adapterFn, adapterTry,
    fetchLatestBlockInfo, fetchLatestBlockInfo_try,
    fetchBtcMetrics, fetchBtcMetrics_try,
    fetchPriceData, fetchPriceData_try,
    fetchFearGreedIndex, fetchFearGreedIndex_try;
  cbn [snd fst]; simpl;
  repeat (next_case; try impossible_read).

(** A failing block, price or sentiment adapter has written nothing but
    [error]. *)
Lemma failure_writes_nothing (host : Host) (net : Network) (s : AppState)
    (a : Adapter) (e : Error) :
  failure host net a = Some e -> a <> BtcMetrics ->
  snd (exec net (adapterFn host a) s) = withError (message e) s.
Proof.
  intros Hf Ha. revert Hf. destruct a; try congruence; clear Ha;
    along_adapter; intros Hf; try discriminate;
    injection Hf as <-; reflexivity.
Qed.

Lemma snapshot_withError (a : Adapter) (msg : string) (s : AppState) :
  snapshot a (withError msg s) = snapshot a s.
Proof. destruct a; reflexivity. Qed.

(** After a cycle in which every slot has had its answers, the cells of
    an adapter are those the adapter leaves when run alone from the state
    the cycle started in. *)
Lemma cycle_snapshot (host : Host) (net : Network) (s0 : AppState)
    (schedule : list nat) (a : Adapter) :
  answersAll schedule = true ->
  snapshot a (App.state (App.run net schedule (App.start host s0))) =
  snapshot a (snd (exec net (adapterFn host a) s0)).
Proof.
  intros Hall.
  pose proof (CycleInv_run schedule (CycleInv_start host net s0)) as Hc.
  pose proof (inv_snapshot Hc a) as Hs.
  rewrite answered_tasks in Hs by assumption. exact Hs.
Qed.

(** X1.  A failure before any payload is at hand (the fetch is rejected,
    the status is not a success, the body is not JSON) is the adapter's
    failure, with the adapter's own message for a bad status, and leaves
    every cell but [error] as it was. *)
Theorem X1_failure_before_payload
    (host : Host) (net : Network) (s : AppState) (a : Adapter) (e : Error) :
  beforePayload a (net (adapterUrl a)) = Some e ->
  failure host net a = Some e
  /\ snd (exec net (adapterFn host a) s) = withError (message e) s.
Proof.
  unfold beforePayload, adapterUrl.
  destruct a; along_adapter; intros H; try discriminate;
    injection H as <-; split; reflexivity.
Qed.

Lemma X1_witness :
  failure Samples.host Samples.twoDown PriceData =
    Some (mkError "Failed to fetch")
  /\ snd (exec Samples.twoDown (adapterFn Samples.host PriceData)
            initialState) =
     withError (message (mkError "Failed to fetch")) initialState.
Proof.
  apply (@X1_failure_before_payload Samples.host Samples.twoDown
           initialState PriceData (mkError "Failed to fetch")).
  reflexivity.
Defined.

(** X2.  The block adapter is decided by the first element of the
    payload's [data]: when it is truthy, the height cell takes its [id]
    and the info cell its [hash], [size], [difficulty] and, under the name
    [totalVolume], its [weight] (each [undefined] when absent), and
    [error] is not touched; when it is falsy (an empty array, [null], 0,
    the empty string) the adapter fails with "No latest block data found"
    and writes nothing else. *)
Theorem X2_block_adapter_outcome
    (host : Host) (net : Network) (s : AppState) (resp : Response)
    (data latestBlock : JsValue) :
  net blockInfoUrl = inr resp ->
  ok resp = true ->
  json resp = inr data ->
  ebind (getProp host data "data") (fun d => getIndex host d 0) =
    inr latestBlock ->
  (if truthy latestBlock
   then failure host net BlockInfo = None
        /\ snd (exec net (fetchLatestBlockInfo host) s) =
           mkAppState
             (JObj [("hash", ownProp latestBlock "hash");
                    ("size", ownProp latestBlock "size");
                    ("difficulty", ownProp latestBlock "difficulty");
                    ("totalVolume", ownProp latestBlock "weight")])
             (ownProp latestBlock "id")
             (btcPrice s) (btcMetrics s) (priceData s) (fearGreedIndex s)
             (error s)
   else failure host net BlockInfo =
          Some (mkError "No latest block data found")
        /\ snd (exec net (fetchLatestBlockInfo host) s) =
           withError "No latest block data found" s).
Proof.
  intros Hnet Hok Hjson Hfirst.
  unfold failure, exec, adapterTry, fetchLatestBlockInfo,
    fetchLatestBlockInfo_try. cbn [snd]. simpl.
  rewrite Hnet. simpl. rewrite Hok. simpl. rewrite Hjson. simpl.
  rewrite Hfirst. simpl.
  destruct latestBlock; simpl; try (split; reflexivity).
  - destruct b; simpl; split; reflexivity.
  - destruct (negb (PrimFloat.is_zero n || PrimFloat.is_nan n)); simpl;
      split; reflexivity.
  - destruct (negb (String.eqb s0 "")); simpl; split; reflexivity.
Qed.

Lemma X2_witness :
  failure Samples.host Samples.allUp BlockInfo = None
  /\ snd (exec Samples.allUp (fetchLatestBlockInfo Samples.host)
            initialState) =
     mkAppState
       (JObj [("hash", JStr "00000ab"); ("size", JNum 1400000);
              ("difficulty", JNum 60000000000000);
              ("totalVolume", JNum 3990000)])
       (JNum 820000) JNull JNull JNull JNull "".
Proof.
  exact (@X2_block_adapter_outcome Samples.host Samples.allUp initialState
           (mkResponse true (inr Samples.blockJson)) Samples.blockJson
           (JObj [("id", JNum 820000); ("hash", JStr "00000ab");
                  ("size", JNum 1400000);
                  ("difficulty", JNum 60000000000000);
                  ("weight", JNum 3990000)])
           eq_refl eq_refl eq_refl eq_refl).
Defined.

(** X3.  The block, price and sentiment adapters are all-or-nothing: one
    that fails has written nothing but [error], so after a cycle in which
    it failed its cells hold what they held before the cycle (the last
    good value), in the [Promise.all] variant under any schedule that
    gives every slot its answers and in the sequential variant. *)
Theorem X3_failure_keeps_last_good_value
    (host : Host) (net : Network) (s0 : AppState) (schedule : list nat)
    (a : Adapter) (e : Error) :
  failure host net a = Some e ->
  a <> BtcMetrics ->
  answersAll schedule = true ->
  snd (exec net (adapterFn host a) s0) = withError (message e) s0
  /\ snapshot a (App.state (App.run net schedule (App.start host s0))) =
     snapshot a s0
  /\ snapshot a (snd (exec net (Sequential.fetchLatestData host) s0)) =
     snapshot a s0.
Proof.
  intros Hf Ha Hall.
  pose proof (failure_writes_nothing host net s0 Hf Ha) as Hsolo.
  split; [exact Hsolo|]. split.
  - rewrite cycle_snapshot by assumption.
    rewrite Hsolo. apply snapshot_withError.
  - rewrite sequential_snapshot, Hsolo. apply snapshot_withError.
Qed.

Lemma X3_witness :
  snd (exec Samples.blockDown (adapterFn Samples.host BlockInfo)
         (snd (exec Samples.allUp
                 (Sequential.fetchLatestData Samples.host) initialState))) =
    withError (message (mkError "Failed to fetch latest block info"))
      (snd (exec Samples.allUp
              (Sequential.fetchLatestData Samples.host) initialState))
  /\ snapshot BlockInfo
       (App.state
          (App.run Samples.blockDown Samples.schedule
             (App.start Samples.host
                (snd (exec Samples.allUp
                        (Sequential.fetchLatestData Samples.host)
                        initialState))))) =
     snapshot BlockInfo
       (snd (exec Samples.allUp
               (Sequential.fetchLatestData Samples.host) initialState))
  /\ snapshot BlockInfo
       (snd (exec Samples.blockDown
               (Sequential.fetchLatestData Samples.host)
               (snd (exec Samples.allUp
                       (Sequential.fetchLatestData Samples.host)
                       initialState)))) =
     snapshot BlockInfo
       (snd (exec Samples.allUp
               (Sequential.fetchLatestData Samples.host) initialState)).
Proof.
  apply (@X3_failure_keeps_last_good_value Samples.host Samples.blockDown
           (snd (exec Samples.allUp
                   (Sequential.fetchLatestData Samples.host) initialState))
           Samples.schedule BlockInfo
           (mkError "Failed to fetch latest block info")).
  - reflexivity.
  - discriminate.
  - reflexivity.
Defined.

(** X4.  A failing market adapter has written [error] and at most the
    price: [btcMetrics] and the cells of the other adapters are as they
    were. *)
Theorem X4_market_failure_writes_at_most_the_price
    (host : Host) (net : Network) (s : AppState) (e : Error) :
  failure host net BtcMetrics = Some e ->
  snd (exec net (fetchBtcMetrics host) s) = withError (message e) s
  \/ exists usd,
       snd (exec net (fetchBtcMetrics host) s) =
       withError (message e) (applySetter (SetBtcPrice usd) s).
Proof.
  along_adapter; intros H; try discriminate; injection H as <-;
    solve [ left; reflexivity | right; eexists; reflexivity ].
Qed.

Lemma X4_witness :
  snd (exec Samples.noVolume (fetchBtcMetrics Samples.host) initialState) =
    withError
      (message (mkError "Cannot read properties of undefined (reading 'usd')"))
      initialState
  \/ exists usd,
       snd (exec Samples.noVolume (fetchBtcMetrics Samples.host)
              initialState) =
       withError
         (message
            (mkError "Cannot read properties of undefined (reading 'usd')"))
         (applySetter (SetBtcPrice usd) initialState).
Proof.
  apply (@X4_market_failure_writes_at_most_the_price Samples.host
           Samples.noVolume initialState
           (mkError "Cannot read properties of undefined (reading 'usd')")).
  reflexivity.
Defined.

(** X5.  The market adapter needs [market_data] and, in it,
    [current_price], [market_cap] and [total_volume] to be objects; the
    two percentage fields may be missing.  It then stores the three [usd]
    values and the two percentages (each [undefined] when absent) and
    does not touch [error]. *)
Theorem X5_market_adapter_mapping
    (host : Host) (net : Network) (s : AppState) (resp : Response)
    (props md cp mc tv : list (string * JsValue)) :
  net btcMetricsUrl = inr resp ->
  ok resp = true ->
  json resp = inr (JObj props) ->
  lookup "market_data" props = JObj md ->
  lookup "current_price" md = JObj cp ->
  lookup "market_cap" md = JObj mc ->
  lookup "total_volume" md = JObj tv ->
  failure host net BtcMetrics = None
  /\ snd (exec net (fetchBtcMetrics host) s) =
     mkAppState (blockInfo s) (blockHeight s)
       (lookup "usd" cp)
       (JObj [("marketCap", lookup "usd" mc);
              ("volume24h", lookup "usd" tv);
              ("priceChange24h", lookup "price_change_percentage_24h" md);
              ("priceChange7d", lookup "price_change_percentage_7d" md)])
       (priceData s) (fearGreedIndex s) (error s).
Proof.
  intros Hnet Hok Hjson Hmd Hcp Hmc Htv.
  unfold failure, exec, adapterTry, fetchBtcMetrics, fetchBtcMetrics_try.
  cbn [snd]. simpl.
  rewrite Hnet. simpl. rewrite Hok. simpl. rewrite Hjson.
  unfold getPath. simpl.
  rewrite Hmd. simpl. rewrite Hcp, Hmc, Htv. simpl.
  split; reflexivity.
Qed.

Lemma X5_witness :
  failure Samples.host Samples.bareMarket BtcMetrics = None
  /\ snd (exec Samples.bareMarket (fetchBtcMetrics Samples.host)
            initialState) =
     mkAppState JNull JNull (JNum 50000)
       (JObj [("marketCap", JNum 980000000000);
              ("volume24h", JUndefined);
              ("priceChange24h", JUndefined);
              ("priceChange7d", JUndefined)])
       JNull JNull "".
Proof.
  exact (@X5_market_adapter_mapping Samples.host Samples.bareMarket
           initialState (mkResponse true (inr Samples.marketJsonBare))
           [("market_data",
             JObj [("current_price", JObj [("usd", JNum 50000)]);
                   ("market_cap", JObj [("usd", JNum 980000000000)]);
                   ("total_volume", JObj [])])]
           [("current_price", JObj [("usd", JNum 50000)]);
            ("market_cap", JObj [("usd", JNum 980000000000)]);
            ("total_volume", JObj [])]
           [("usd", JNum 50000)] [("usd", JNum 980000000000)] []
           eq_refl eq_refl eq_refl eq_refl eq_refl eq_refl eq_refl).
Defined.

(** A point with a problem stops the first map with that problem; a
    point without one passes both maps. *)
Lemma point_outcome (host : Host) (p : JsValue) :
  match pointProblem host p with
  | Some e => hourLabel host p = inl e
  | None =>
      (exists label, hourLabel host p = inr label)
      /\ (exists price, pointPrice host p = inr price)
  end.
Proof.
  destruct p as [| | b | n | s | elems | props];
    unfold pointProblem, timestampProblem, hourLabel, pointPrice, new_Date;
    simpl; try reflexivity.
  - split; eexists; reflexivity.
  - split; eexists; reflexivity.
  - destruct (charAt s 0); simpl; split; eexists; reflexivity.
  - destruct (cannotConvert (nth 0 elems JUndefined)); simpl;
      [reflexivity | split; eexists; reflexivity].
  - change (indexKey 0) with "0".
    destruct (cannotConvert (lookup "0" props)); simpl;
      [reflexivity | split; eexists; reflexivity].
Qed.

(** Mapping over the points stops at the first one that has a problem. *)
Lemma mapM_points (host : Host) (points : list JsValue) :
  match firstProblem host points with
  | Some e => mapM (hourLabel host) points = inl e
  | None =>
      (exists labels, mapM (hourLabel host) points = inr labels)
      /\ (exists prices, mapM (pointPrice host) points = inr prices)
  end.
Proof.
  induction points as [|p rest IH]; cbn [firstProblem mapM].
  - split; eexists; reflexivity.
  - pose proof (point_outcome host p) as Hp.
    destruct (pointProblem host p) as [e|].
    + rewrite Hp. reflexivity.
    + destruct Hp as [[label Hl] [price Hv]]. rewrite Hl, Hv. simpl.
      destruct (firstProblem host rest) as [e|].
      * rewrite IH. reflexivity.
      * destruct IH as [[labels Hls] [prices Hps]]. rewrite Hls, Hps.
        split; eexists; reflexivity.
Qed.

(** X6.  Given a JSON payload, the price adapter fails exactly when
    [data.prices] is not an array or one of its points has a problem: the
    point is [undefined] or [null], or its timestamp cannot be converted
    to a primitive value by [new Date] (an object with an own [toString],
    or an array that holds one).  The failure is that of the first such
    point, with the engine's message; one bad point fails the whole
    series. *)
Theorem X6_price_adapter_failure
    (host : Host) (net : Network) (resp : Response) (data prices : JsValue) :
  net priceDataUrl = inr resp ->
  ok resp = true ->
  json resp = inr data ->
  getProp host data "prices" = inr prices ->
  failure host net PriceData = pricesProblem host prices.
Proof.
  intros Hnet Hok Hjson Hprices.
  unfold failure, adapterTry, fetchPriceData_try. simpl.
  rewrite Hnet. simpl. rewrite Hok. simpl. rewrite Hjson. simpl.
  rewrite Hprices. simpl.
  destruct prices as [| | b | n | s | points | props]; simpl;
    try reflexivity.
  pose proof (mapM_points host points) as H.
  destruct (firstProblem host points) as [e|].
  - rewrite H. reflexivity.
  - destruct H as [[labels Hl] [values Hv]]. rewrite Hl. simpl.
    rewrite Hv. reflexivity.
Qed.

Lemma X6_witness :
  failure Samples.host Samples.gapInChart PriceData =
    Some (mkError "Cannot read properties of null (reading '0')")
  /\ failure Samples.host Samples.oddStampInChart PriceData =
     Some (mkError "Cannot convert object to primitive value")
  /\ failure Samples.host Samples.shortChart PriceData = None.
Proof.
  split; [|split].
  - exact (@X6_price_adapter_failure Samples.host Samples.gapInChart
             (mkResponse true (inr Samples.chartJsonGap))
             Samples.chartJsonGap
             (JArr [JArr [JNum 1699999200000; JNum 43000]; JNull;
                    JArr [JNum 1700006400000; JNum 43002]])
             eq_refl eq_refl eq_refl eq_refl).
  - exact (@X6_price_adapter_failure Samples.host Samples.oddStampInChart
             (mkResponse true (inr Samples.chartJsonOddStamp))
             Samples.chartJsonOddStamp
             (JArr [JArr [JNum 1699999200000; JNum 43000];
                    JArr [JObj [("toString", JNum 1)]; JNum 43001]])
             eq_refl eq_refl eq_refl eq_refl).
  - exact (@X6_price_adapter_failure Samples.host Samples.shortChart
             (mkResponse true (inr (marketChartJson (Samples.series 3))))
             (marketChartJson (Samples.series 3))
             (JArr (map rawPoint (Samples.series 3)))
             eq_refl eq_refl eq_refl eq_refl).
Defined.

(** X7.  Given a JSON payload, the sentiment adapter fails exactly when
    the first element of [data] is [undefined] (an empty array) or
    [null]: reading its [value] throws, and nothing but [error] is
    written.  Any other first element is stored. *)
Theorem X7_sentiment_adapter_failure
    (host : Host) (net : Network) (s : AppState) (resp : Response)
    (data indexData : JsValue) :
  net fearGreedUrl = inr resp ->
  ok resp = true ->
  json resp = inr data ->
  ebind (getProp host data "data") (fun d => getIndex host d 0) =
    inr indexData ->
  failure host net FearGreed =
    (if nullish indexData
     then Some (mkError (msgCannotRead host indexData "value"))
     else None)
  /\ snd (exec net (fetchFearGreedIndex host) s) =
     (if nullish indexData
      then withError (msgCannotRead host indexData "value") s
      else applySetter
             (SetFearGreedIndex
                (JObj [("value", ownProp indexData "value");
                       ("classification",
                        ownProp indexData "value_classification")])) s).
Proof.
  intros Hnet Hok Hjson Hfirst.
  unfold failure, exec, adapterTry, fetchFearGreedIndex,
    fetchFearGreedIndex_try. cbn [snd]. simpl.
  rewrite Hnet. simpl. rewrite Hok. simpl. rewrite Hjson. simpl.
  rewrite Hfirst. simpl.
  destruct indexData; simpl; split; reflexivity.
Qed.

Lemma X7_witness :
  failure Samples.host Samples.emptySentiment FearGreed =
    Some (mkError "Cannot read properties of undefined (reading 'value')")
  /\ snd (exec Samples.emptySentiment (fetchFearGreedIndex Samples.host)
            initialState) =
     withError "Cannot read properties of undefined (reading 'value')"
       initialState.
Proof.
  exact (@X7_sentiment_adapter_failure Samples.host Samples.emptySentiment
           initialState (mkResponse true (inr Samples.fngJsonEmpty))
           Samples.fngJsonEmpty JUndefined
           eq_refl eq_refl eq_refl eq_refl).
Defined.

(** A successful adapter overwrites all its cells: what they hold then
    does not depend on what they held. *)
Lemma success_overwrites (host : Host) (net : Network) (a : Adapter)
    (s s' : AppState) :
  failure host net a = None ->
  snapshot a (snd (exec net (adapterFn host a) s)) =
  snapshot a (snd (exec net (adapterFn host a) s')).
Proof.
  destruct a; along_adapter; intros H; try discriminate; reflexivity.
Qed.

(** X8.  The cells of an adapter that succeeds are a function of its
    payload alone: after a cycle they hold what the adapter computes from
    scratch, whatever the state before the cycle and whatever the order
    in which the answers arrived. *)
Theorem X8_success_depends_on_payload_only
    (host : Host) (net : Network) (s0 : AppState) (schedule : list nat)
    (a : Adapter) :
  failure host net a = None ->
  answersAll schedule = true ->
  snapshot a (App.state (App.run net schedule (App.start host s0))) =
    snapshot a (snd (exec net (adapterFn host a) initialState))
  /\ snapshot a (snd (exec net (Sequential.fetchLatestData host) s0)) =
     snapshot a (snd (exec net (adapterFn host a) initialState)).
Proof.
  intros Hf Hall. split.
  - rewrite cycle_snapshot by assumption. now apply success_overwrites.
  - rewrite sequential_snapshot. now apply success_overwrites.
Qed.

Lemma X8_witness :
  snapshot FearGreed
    (App.state
       (App.run Samples.twoDown Samples.schedule
          (App.start Samples.host
             (snd (exec Samples.oddSentiment
                     (Sequential.fetchLatestData Samples.host)
                     initialState))))) =
    snapshot FearGreed
      (snd (exec Samples.twoDown (adapterFn Samples.host FearGreed)
              initialState))
  /\ snapshot FearGreed
       (snd (exec Samples.twoDown (Sequential.fetchLatestData Samples.host)
               (snd (exec Samples.oddSentiment
                       (Sequential.fetchLatestData Samples.host)
                       initialState)))) =
     snapshot FearGreed
       (snd (exec Samples.twoDown (adapterFn Samples.host FearGreed)
               initialState)).
Proof.
  apply (@X8_success_depends_on_payload_only Samples.host Samples.twoDown
           (snd (exec Samples.oddSentiment
                   (Sequential.fetchLatestData Samples.host) initialState))
           Samples.schedule FearGreed); reflexivity.
Defined.

(** ** Cells and the last call that writes them *)

Section LastWrite.

Context {X : Type}.
Variable get : AppState -> X.
Variable writes : Setter -> option X.
Hypothesis get_set : forall u s,
  get (applySetter u s) =
  match writes u with Some v => v | None => get s end.

Lemma get_applyAll (calls : list Setter) : forall s,
  get (applyAll calls s) = lastWrite writes calls (get s).
Proof.
  induction calls as [|u rest IH]; intros s; [reflexivity|].
  change (applyAll (u :: rest) s) with (applyAll rest (applySetter u s)).
  rewrite IH, get_set. reflexivity.
Qed.

Lemma lastWrite_fixed (calls : list Setter) : forall d,
  lastWrite writes calls d = d
  \/ forall d', lastWrite writes calls d' = lastWrite writes calls d.
Proof.
  induction calls as [|u rest IH]; intros d; [now left|].
  unfold lastWrite in *. simpl.
  destruct (writes u) as [v|].
  - right. reflexivity.
  - apply IH.
Qed.

Lemma get_applyAll_twice (calls : list Setter) (s : AppState) :
  get (applyAll calls (applyAll calls s)) = get (applyAll calls s).
Proof.
  rewrite !get_applyAll.
  destruct (lastWrite_fixed calls (get s)) as [H | H].
  - now rewrite !H.
  - apply H.
Qed.

End LastWrite.

Lemma AppState_ext (s1 s2 : AppState) :
  blockInfo s1 = blockInfo s2 -> blockHeight s1 = blockHeight s2 ->
  btcPrice s1 = btcPrice s2 -> btcMetrics s1 = btcMetrics s2 ->
  priceData s1 = priceData s2 -> fearGreedIndex s1 = fearGreedIndex s2 ->
  error s1 = error s2 -> s1 = s2.
Proof. destruct s1, s2; simpl; intros; subst; reflexivity. Qed.

(** Making the same calls a second time changes nothing. *)
Lemma applyAll_twice (calls : list Setter) (s : AppState) :
  applyAll calls (applyAll calls s) = applyAll calls s.
Proof.
  apply AppState_ext.
  - apply (get_applyAll_twice blockInfo
             (fun u => match u with SetBlockInfo v => Some v | _ => None end)).
    intros u s'. destruct u; reflexivity.
  - apply (get_applyAll_twice blockHeight
             (fun u => match u with SetBlockHeight v => Some v | _ => None end)).
    intros u s'. destruct u; reflexivity.
  - apply (get_applyAll_twice btcPrice
             (fun u => match u with SetBtcPrice v => Some v | _ => None end)).
    intros u s'. destruct u; reflexivity.
  - apply (get_applyAll_twice btcMetrics
             (fun u => match u with SetBtcMetrics v => Some v | _ => None end)).
    intros u s'. destruct u; reflexivity.
  - apply (get_applyAll_twice priceData
             (fun u => match u with SetPriceData v => Some v | _ => None end)).
    intros u s'. destruct u; reflexivity.
  - apply (get_applyAll_twice fearGreedIndex
             (fun u => match u with
                       | SetFearGreedIndex v => Some v
                       | _ => None
                       end)).
    intros u s'. destruct u; reflexivity.
  - apply (get_applyAll_twice error
             (fun u => match u with SetError m => Some m | _ => None end)).
    intros u s'. destruct u; reflexivity.
Qed.

(** X9.  A cycle that sees the same answers as the cycle before it
    changes nothing: the sequential variant leaves the whole state as it
    was, the [Promise.all] variant leaves every adapter's cells as they
    were, whatever the two orders of arrival. *)
Theorem X9_repeated_cycle_is_idempotent
    (host : Host) (net : Network) (s0 : AppState)
    (first second : list nat) (a : Adapter) :
  answersAll first = true ->
  answersAll second = true ->
  snd (exec net (Sequential.fetchLatestData host)
         (snd (exec net (Sequential.fetchLatestData host) s0))) =
    snd (exec net (Sequential.fetchLatestData host) s0)
  /\ snapshot a
       (App.state
          (App.run net second
             (App.start host
                (App.state (App.run net first (App.start host s0)))))) =
     snapshot a (App.state (App.run net first (App.start host s0))).
Proof.
  intros H1 H2. split.
  - unfold exec. cbn [snd]. apply applyAll_twice.
  - rewrite (cycle_snapshot host net _ second a H2).
    rewrite (cycle_snapshot host net s0 first a H1).
    unfold exec. cbn [snd].
    rewrite <- (applyAll_twice (trace net (adapterFn host a)) s0).
    apply snapshot_congr.
    apply (cycle_snapshot host net s0 first a H1).
Qed.

Lemma X9_witness :
  snd (exec Samples.noVolume (Sequential.fetchLatestData Samples.host)
         (snd (exec Samples.noVolume
                 (Sequential.fetchLatestData Samples.host) initialState))) =
    snd (exec Samples.noVolume (Sequential.fetchLatestData Samples.host)
           initialState)
  /\ snapshot BtcMetrics
       (App.state
          (App.run Samples.noVolume [0; 1; 2; 3; 3; 2; 1; 0]
             (App.start Samples.host
                (App.state
                   (App.run Samples.noVolume Samples.schedule
                      (App.start Samples.host initialState)))))) =
     snapshot BtcMetrics
       (App.state
          (App.run Samples.noVolume Samples.schedule
             (App.start Samples.host initialState))).
Proof.
  apply (@X9_repeated_cycle_is_idempotent Samples.host Samples.noVolume
           initialState Samples.schedule [0; 1; 2; 3; 3; 2; 1; 0]
           BtcMetrics); reflexivity.
Defined.

(** ** Structured cells hold objects *)

Ltac object_step :=
  first
    [ exact I
    | apply callsIn_settled
    | apply callsIn_bind; [ | intros ? ]
    | match goal with
      | |- callsIn _ (if ?b then _ else _) => destruct b
      | |- callsIn _ (when_ ?b _) => destruct b; simpl
      | |- callsIn _ (call _) =>
          simpl; split; [ first [ reflexivity | exact I ] | exact I ]
      | |- callsIn _ (await_fetch _) => intros ?; apply callsIn_settled
      | |- callsIn _ (await_json _) => intros ?; apply callsIn_settled
      | |- callsIn _ (eval _) => apply callsIn_settled
      end ].

(** Whatever the payload, an adapter hands an object to the setter of a
    structured cell. *)
Lemma adapterFn_writes_objects (host : Host) (a : Adapter) :
  callsIn writesObject (adapterFn host a).
Proof.
  rewrite adapterFn_eq. apply callsIn_tryCatch; [|intros e; simpl; auto].
  destruct a; unfold adapterTry, fetchLatestBlockInfo_try,
    fetchBtcMetrics_try, fetchPriceData_try, fetchFearGreedIndex_try;
    repeat object_step.
Qed.

Section ObjectKept.

Variable get : AppState -> JsValue.
Hypothesis get_object : forall u s,
  writesObject u -> populated (get s) = true ->
  populated (get (applySetter u s)) = true.

Lemma populated_kept (calls : list Setter) : forall s,
  Forall writesObject calls ->
  implb (populated (get s)) (populated (get (applyAll calls s))) = true.
Proof.
  induction calls as [|u rest IH]; intros s H.
  - apply implb_same.
  - inversion H as [|u' rest' Hu Hrest]; subst.
    change (applyAll (u :: rest) s) with (applyAll rest (applySetter u s)).
    destruct (populated (get s)) eqn:Hs; [|reflexivity].
    specialize (IH (applySetter u s) Hrest).
    rewrite (get_object u s Hu Hs) in IH. exact IH.
Qed.

End ObjectKept.

Lemma structured_kept (calls : list Setter) (s : AppState) :
  Forall writesObject calls ->
  Forall2
    (fun before after => implb (populated before) (populated after) = true)
    (structuredCells s) (structuredCells (applyAll calls s)).
Proof.
  intros H. unfold structuredCells.
  constructor; [|constructor; [|constructor; [|constructor; [|constructor]]]].
  - apply (populated_kept blockInfo); auto.
    intros u s' Hu Hs. destruct u; simpl in *; auto.
  - apply (populated_kept btcMetrics); auto.
    intros u s' Hu Hs. destruct u; simpl in *; auto.
  - apply (populated_kept priceData); auto.
    intros u s' Hu Hs. destruct u; simpl in *; auto.
  - apply (populated_kept fearGreedIndex); auto.
    intros u s' Hu Hs. destruct u; simpl in *; auto.
Qed.

Lemma cycle_structured (host : Host) (net : Network) (s0 : AppState)
    (schedule : list nat) :
  answersAll schedule = true ->
  structuredCells (App.state (App.run net schedule (App.start host s0))) =
  [blockInfo (snd (exec net (adapterFn host BlockInfo) s0));
   btcMetrics (snd (exec net (adapterFn host BtcMetrics) s0));
   priceData (snd (exec net (adapterFn host PriceData) s0));
   fearGreedIndex (snd (exec net (adapterFn host FearGreed) s0))].
Proof.
  intros Hall. unfold structuredCells.
  pose proof (cycle_snapshot host net s0 schedule BlockInfo Hall) as H1.
  pose proof (cycle_snapshot host net s0 schedule BtcMetrics Hall) as H2.
  pose proof (cycle_snapshot host net s0 schedule PriceData Hall) as H3.
  pose proof (cycle_snapshot host net s0 schedule FearGreed Hall) as H4.
  cbn [snapshot] in H1, H2, H3, H4.
  injection H1 as H1 _. injection H2 as _ H2. injection H3 as H3.
  injection H4 as H4. now rewrite H1, H2, H3, H4.
Qed.

(** X10.  A structured cell ([blockInfo], [btcMetrics], [priceData],
    [fearGreedIndex]) that holds an object still holds an object after any
    cycle: no outcome of a fetch sets it back to [null] or to anything
    that is not an object. *)
Theorem X10_structured_cells_stay_objects
    (host : Host) (net : Network) (s0 : AppState) (schedule : list nat) :
  answersAll schedule = true ->
  Forall2
    (fun before after => implb (populated before) (populated after) = true)
    (structuredCells s0)
    (structuredCells (snd (exec net (Sequential.fetchLatestData host) s0)))
  /\ Forall2
       (fun before after =>
          implb (populated before) (populated after) = true)
       (structuredCells s0)
       (structuredCells
          (App.state (App.run net schedule (App.start host s0)))).
Proof.
  intros Hall. split.
  - unfold exec. cbn [snd]. apply structured_kept.
    rewrite sequential_trace.
    pose proof (fun a => callsIn_trace _ net _
                           (adapterFn_writes_objects host a)) as H.
    rewrite !Forall_app. repeat split; apply H.
  - rewrite (cycle_structured host net s0 schedule Hall).
    pose proof (fun a =>
      @structured_kept (trace net (adapterFn host a)) s0
        (callsIn_trace _ net _ (adapterFn_writes_objects host a))) as H.
    unfold structuredCells, exec in *. cbn [snd].
    pose proof (H BlockInfo) as H1. pose proof (H BtcMetrics) as H2.
    pose proof (H PriceData) as H3. pose proof (H FearGreed) as H4.
    clear H.
    inversion H1 as [|? ? ? ? A1 _]; subst.
    inversion H2 as [|? ? ? ? _ B]; subst.
    inversion B as [|? ? ? ? A2 _]; subst.
    inversion H3 as [|? ? ? ? _ B3]; subst.
    inversion B3 as [|? ? ? ? _ B3']; subst.
    inversion B3' as [|? ? ? ? A3 _]; subst.
    inversion H4 as [|? ? ? ? _ B4]; subst.
    inversion B4 as [|? ? ? ? _ B4']; subst.
    inversion B4' as [|? ? ? ? _ B4'']; subst.
    inversion B4'' as [|? ? ? ? A4 _]; subst.
    repeat (constructor; [assumption|]). constructor.
Qed.

Lemma X10_witness :
  Forall2
    (fun before after => implb (populated before) (populated after) = true)
    (structuredCells
       (snd (exec Samples.allUp (Sequential.fetchLatestData Samples.host)
               initialState)))
    (structuredCells
       (snd (exec Samples.twoDown (Sequential.fetchLatestData Samples.host)
               (snd (exec Samples.allUp
                       (Sequential.fetchLatestData Samples.host)
                       initialState)))))
  /\ Forall2
       (fun before after =>
          implb (populated before) (populated after) = true)
       (structuredCells
          (snd (exec Samples.allUp
                  (Sequential.fetchLatestData Samples.host) initialState)))
       (structuredCells
          (App.state
             (App.run Samples.twoDown Samples.schedule
                (App.start Samples.host
                   (snd (exec Samples.allUp
                           (Sequential.fetchLatestData Samples.host)
                           initialState)))))).
Proof.
  apply (@X10_structured_cells_stay_objects Samples.host Samples.twoDown
           (snd (exec Samples.allUp
                   (Sequential.fetchLatestData Samples.host) initialState))
           Samples.schedule).
  reflexivity.
Defined.

(** ** Requests *)

Section RequestFacts.

Variable net : Network.

Lemma requests_bind {A B} (m : Async A) (f : A -> Async B) :
  requests net (bind m f) =
  requests net m ++ match result net m with
                    | inl _ => []
                    | inr a => requests net (f a)
                    end.
Proof.
  induction m as [a | e | u k IH | url k IH | r k IH]; simpl; auto.
  now rewrite IH.
Qed.

Lemma requests_tryCatch {A} (m : Async A) (h : Error -> Async A) :
  requests net (tryCatch m h) =
  requests net m ++ match result net m with
                    | inl e => requests net (h e)
                    | inr _ => []
                    end.
Proof.
  induction m as [a | e | u k IH | url k IH | r k IH]; simpl; auto.
  now rewrite IH.
Qed.

End RequestFacts.

(** X11.  In a cycle every adapter issues exactly one request, to its own
    endpoint, whatever the answers: nothing is retried and no other
    endpoint is touched.  It reads a body only from a response whose
    status is a success.  The sequential variant issues the four requests
    in the order block, market, prices, sentiment, also when one of them
    fails. *)
Theorem X11_one_request_per_adapter (host : Host) (net : Network) :
  (forall a,
     requests net (adapterFn host a) = [adapterUrl a]
     /\ bodiesRead net (adapterFn host a) =
        match net (adapterUrl a) with
        | inr resp => if ok resp then 1 else 0
        | inl _ => 0
        end)
  /\ requests net (Sequential.fetchLatestData host) =
     map adapterUrl allAdapters.
Proof.
  assert (Hone : forall a,
     requests net (adapterFn host a) = [adapterUrl a]
     /\ bodiesRead net (adapterFn host a) =
        match net (adapterUrl a) with
        | inr resp => if ok resp then 1 else 0
        | inl _ => 0
        end).
  { intros a. destruct a;
      unfold adapterFn, adapterUrl, fetchLatestBlockInfo,
        fetchLatestBlockInfo_try, fetchBtcMetrics, fetchBtcMetrics_try,
        fetchPriceData, fetchPriceData_try, fetchFearGreedIndex,
        fetchFearGreedIndex_try;
      simpl; repeat next_case; split; reflexivity. }
  split; [exact Hone|].
  unfold Sequential.fetchLatestData.
  rewrite requests_tryCatch, sequential_body_result, app_nil_r.
  change (fetchLatestBlockInfo host) with (adapterFn host BlockInfo).
  change (fetchBtcMetrics host) with (adapterFn host BtcMetrics).
  change (fetchPriceData host) with (adapterFn host PriceData).
  change (fetchFearGreedIndex host) with (adapterFn host FearGreed).
  rewrite !requests_bind.
  rewrite (adapterFn_result host net BlockInfo).
  rewrite (adapterFn_result host net BtcMetrics).
  rewrite (adapterFn_result host net PriceData).
  rewrite !(proj1 (Hone _)). reflexivity.
Qed.

(** X12.  The [catch] of the sequential [fetchLatestData] never runs:
    every adapter handles its own failure, so the four awaits never
    throw, and the function does what its [try] block alone does. *)
Theorem X12_outer_catch_is_unreachable
    (host : Host) (net : Network) (s : AppState) :
  result net (sequentialAwaits host) = inr tt
  /\ exec net (Sequential.fetchLatestData host) s =
     exec net (sequentialAwaits host) s.
Proof.
  pose proof (sequential_body_result host net) as H.
  split; [exact H|].
  unfold exec, Sequential.fetchLatestData, sequentialAwaits.
  rewrite result_guard, trace_tryCatch, H, app_nil_r. reflexivity.
Qed.

(** ** Mounting, unmounting and mounting again *)

Section RemountFacts.

Local Open Scope N_scope.

(** One timer with the refresh period, started at [t]: after [n]
    milliseconds it has fired at every multiple of the period. *)
Lemma elapse_one_timer (t n nid id : N) (calls : list N) :
  Timer.elapse n
    (Timer.mkWindow t nid
       [Timer.mkInterval id Timer.refreshIntervalMs
          (t + Timer.refreshIntervalMs)] calls) =
  Timer.mkWindow (t + n) nid
    [Timer.mkInterval id Timer.refreshIntervalMs
       (t + Timer.refreshIntervalMs * (n / Timer.refreshIntervalMs + 1))]
    (calls ++ Timer.firings t n).
Proof.
  unfold Timer.elapse. induction n as [|n IH] using N.peano_ind.
  - cbn [N.iter]. rewrite N.add_0_r.
    change (Timer.firings t 0) with (@nil N). rewrite app_nil_r.
    reflexivity.
  - rewrite N.iter_succ, IH. clear IH. unfold Timer.tick.
    cbn [Timer.now Timer.intervals Timer.invoked Timer.nextId fold_left].
    unfold Timer.fire. cbn [Timer.due Timer.intervalId Timer.delay].
    rewrite <- N.add_1_r, <- N.add_assoc. unfold Timer.firings.
    destruct (N.eq_dec ((n + 1) mod Timer.refreshIntervalMs) 0)
      as [Hmod | Hmod].
    + destruct (firings_next n Hmod) as [Hq Hn]. rewrite Hq.
      replace (N.to_nat (n / Timer.refreshIntervalMs + 1))
        with (S (N.to_nat (n / Timer.refreshIntervalMs))) by lia.
      rewrite seq_S, map_app. cbn [map].
      rewrite <- Hn, N.eqb_refl. cbn [fst snd app].
      replace (N.of_nat (1 + N.to_nat (n / Timer.refreshIntervalMs)))
        with (n / Timer.refreshIntervalMs + 1) by lia.
      rewrite <- Hn.
      replace (Timer.refreshIntervalMs *
               (n / Timer.refreshIntervalMs + 1 + 1))
        with (n + 1 + Timer.refreshIntervalMs).
      * rewrite (N.add_assoc t (n + 1)), app_assoc. reflexivity.
      * rewrite (N.mul_add_distr_l _ _ 1), <- Hn, N.mul_1_r. reflexivity.
    + rewrite (firings_same n Hmod).
      destruct (N.eqb_spec
                  (t + Timer.refreshIntervalMs *
                         (n / Timer.refreshIntervalMs + 1))
                  (t + (n + 1))) as [Hdue | Hdue].
      * exfalso. apply Hmod, due_iff.
        apply N.add_cancel_l in Hdue. now symmetry.
      * reflexivity.
Qed.

Lemma filter_all {A} (f : A -> bool) (l : list A) :
  forallb f l = true -> filter f l = l.
Proof.
  induction l as [|x l IH]; simpl; auto.
  intros H. apply andb_true_iff in H. destruct H as [Hx Hl].
  now rewrite Hx, IH.
Qed.

End RemountFacts.

(** X13.  Running the effect and then its cleanup leaves the host's
    timers as they were: the cleanup clears the timer the effect set and
    no other.  What remains of the effect is the one immediate call of
    [fetchLatestData]. *)
Theorem X13_cleanup_clears_its_own_timer (w : Timer.Window) :
  timersKnown w = true ->
  Timer.intervals (snd (Timer.useEffect w) (fst (Timer.useEffect w))) =
    Timer.intervals w
  /\ Timer.invoked (snd (Timer.useEffect w) (fst (Timer.useEffect w))) =
     Timer.invoked w ++ [Timer.now w].
Proof.
  intros Hk. unfold Timer.useEffect, Timer.setInterval,
    Timer.fetchLatestData, Timer.clearInterval.
  cbn [fst snd Timer.intervals Timer.invoked Timer.now Timer.nextId].
  split; [|reflexivity].
  rewrite filter_app. cbn [filter Timer.intervalId].
  rewrite N.eqb_refl. cbn [negb]. rewrite app_nil_r.
  apply filter_all. unfold timersKnown in Hk.
  rewrite forallb_forall in *. intros t Ht. specialize (Hk t Ht).
  apply N.ltb_lt in Hk. apply negb_true_iff, N.eqb_neq. lia.
Qed.

Lemma X13_witness :
  Timer.intervals
    (snd (Timer.useEffect
            (Timer.mkWindow 5000 8 [Timer.mkInterval 3 250 5100] [])%N)
       (fst (Timer.useEffect
               (Timer.mkWindow 5000 8 [Timer.mkInterval 3 250 5100] [])%N))) =
    Timer.intervals
      (Timer.mkWindow 5000 8 [Timer.mkInterval 3 250 5100] [])%N
  /\ Timer.invoked
       (snd (Timer.useEffect
               (Timer.mkWindow 5000 8 [Timer.mkInterval 3 250 5100] [])%N)
          (fst (Timer.useEffect
                  (Timer.mkWindow 5000 8 [Timer.mkInterval 3 250 5100] [])%N))) =
     Timer.invoked
       (Timer.mkWindow 5000 8 [Timer.mkInterval 3 250 5100] [])%N ++
     [Timer.now (Timer.mkWindow 5000 8 [Timer.mkInterval 3 250 5100] [])%N].
Proof.
  apply (X13_cleanup_clears_its_own_timer
           (Timer.mkWindow 5000 8 [Timer.mkInterval 3 250 5100] [])%N).
  reflexivity.
Defined.

(** X14.  When the effect is run again after its cleanup (the component
    is mounted anew after [ms] milliseconds), the refreshes follow the new
    start only: one call at once and one at every multiple of the period
    counted from it, none left over from the first timer, and one timer
    set. *)
Theorem X14_remount_restarts_the_schedule (t0 ms later : N) :
  Timer.invoked
    (Timer.elapse later
       (fst (Timer.useEffect
               (snd (Timer.useEffect (Timer.freshWindow t0))
                  (Timer.elapse ms
                     (fst (Timer.useEffect (Timer.freshWindow t0)))))))) =
    (t0 :: Timer.firings t0 ms) ++
    (t0 + ms)%N :: Timer.firings (t0 + ms)%N later
  /\ length
       (Timer.intervals
          (Timer.elapse later
             (fst (Timer.useEffect
                     (snd (Timer.useEffect (Timer.freshWindow t0))
                        (Timer.elapse ms
                           (fst (Timer.useEffect
                                   (Timer.freshWindow t0))))))))) = 1.
Proof.
  assert (Hmount : Timer.useEffect (Timer.freshWindow t0) =
            (Timer.mkWindow t0 2
               [Timer.mkInterval 1 Timer.refreshIntervalMs
                  (t0 + Timer.refreshIntervalMs)%N] [t0],
             Timer.clearInterval 1)) by reflexivity.
  rewrite Hmount. cbn [fst snd].
  rewrite (elapse_one_timer t0 ms 2 1 [t0]).
  unfold Timer.clearInterval at 1 2.
  cbn [Timer.now Timer.nextId Timer.intervals Timer.invoked
       Timer.intervalId filter].
  rewrite N.eqb_refl. cbn [negb].
  unfold Timer.useEffect, Timer.setInterval, Timer.fetchLatestData.
  cbn [fst snd Timer.now Timer.nextId Timer.intervals Timer.invoked app].
  rewrite elapse_one_timer.
  cbn [Timer.invoked Timer.intervals length]. split; [|reflexivity].
  cbn [app]. f_equal. rewrite <- app_assoc. reflexivity.
Qed.

(** ** When the two variants agree on [error] as well *)

Section OneFailure.

Variable host : Host.
Variable net : Network.

Lemma lastFailure_single (a0 : Adapter) :
  (forall a, failure host net a <> None -> a = a0) ->
  forall l,
    lastFailure host net l =
    if existsb (Adapter_eqb a0) l then failure host net a0 else None.
Proof.
  intros Huniq. induction l as [|a rest IH]; [reflexivity|].
  cbn [lastFailure existsb]. rewrite IH.
  assert (Ha : Adapter_eqb a0 a = true \/
               (Adapter_eqb a0 a = false /\ failure host net a = None)).
  { destruct (failure host net a) as [e|] eqn:Hf.
    - left. rewrite <- (Huniq a) by congruence. destruct a; reflexivity.
    - destruct (Adapter_eqb a0 a); auto. }
  destruct Ha as [Ha | [Ha Hf]]; rewrite Ha; simpl.
  - assert (a = a0) by (destruct a, a0; simpl in Ha; congruence).
    subst a. destruct (existsb (Adapter_eqb a0) rest);
      destruct (failure host net a0); reflexivity.
  - rewrite Hf. destruct (existsb (Adapter_eqb a0) rest);
      destruct (failure host net a0); reflexivity.
Qed.

Lemma failureCount_single :
  failureCount host net <= 1 ->
  exists a0, forall a, failure host net a <> None -> a = a0.
Proof.
  unfold failureCount, allAdapters. cbn [filter].
  destruct (failure host net BlockInfo) eqn:H1;
    destruct (failure host net BtcMetrics) eqn:H2;
    destruct (failure host net PriceData) eqn:H3;
    destruct (failure host net FearGreed) eqn:H4;
    cbn [length]; intros Hle; try lia.
  - exists BlockInfo. intros a Ha. destruct a; congruence.
  - exists BtcMetrics. intros a Ha. destruct a; congruence.
  - exists PriceData. intros a Ha. destruct a; congruence.
  - exists FearGreed. intros a Ha. destruct a; congruence.
  - exists BlockInfo. intros a Ha. destruct a; congruence.
Qed.

Lemma existsb_all (a0 : Adapter) (l : list Adapter) :
  Permutation allAdapters l -> existsb (Adapter_eqb a0) l = true.
Proof.
  intros Hp. apply existsb_exists. exists a0. split.
  - apply (Permutation_in _ Hp). destruct a0; simpl; auto.
  - destruct a0; reflexivity.
Qed.

Lemma order_complete (s0 : AppState) (schedule : list nat) :
  answersAll schedule = true ->
  Permutation allAdapters (Settle.order net schedule (App.start host s0)).
Proof.
  intros Hall.
  destruct (order_spec schedule (CycleInv_start host net s0)) as [Hnd Hin].
  apply NoDup_Permutation; auto.
  - repeat constructor; simpl; intuition discriminate.
  - intros a. split; [intros _ | destruct a; simpl; auto].
    apply Hin. split.
    + destruct a; reflexivity.
    + now rewrite answered_tasks.
Qed.

End OneFailure.

(** States with the same snapshots and the same [error] are equal. *)
Lemma same_snapshots (s1 s2 : AppState) :
  (forall a, snapshot a s1 = snapshot a s2) -> error s1 = error s2 ->
  s1 = s2.
Proof.
  intros H He.
  pose proof (H BlockInfo) as H1. pose proof (H BtcMetrics) as H2.
  pose proof (H PriceData) as H3. pose proof (H FearGreed) as H4.
  destruct s1, s2. simpl in *. congruence.
Qed.

(** X15.  When at most one adapter fails, the [Promise.all] variant,
    under any schedule that gives every slot its answers, ends in exactly
    the state in which the sequential variant ends: the [error] cell
    agrees too.  (With two or more failures the cells still agree, but
    the message kept is the one of the failure that came last.) *)
Theorem X15_variants_agree_with_one_failure
    (host : Host) (net : Network) (s0 : AppState) (schedule : list nat) :
  failureCount host net <= 1 ->
  answersAll schedule = true ->
  App.state (App.run net schedule (App.start host s0)) =
  snd (exec net (Sequential.fetchLatestData host) s0).
Proof.
  intros Hone Hall.
  assert (Hsnap : forall a,
    snapshot a (App.state (App.run net schedule (App.start host s0))) =
    snapshot a (snd (exec net (Sequential.fetchLatestData host) s0))).
  { intros a. rewrite sequential_snapshot. now apply cycle_snapshot. }
  apply same_snapshots; [exact Hsnap|].
  rewrite (run_error schedule (CycleInv_start host net s0)).
  rewrite sequential_error.
  destruct (@failureCount_single host net Hone) as [a0 Ha0].
  rewrite !(@lastFailure_single host net a0 Ha0).
  rewrite (@existsb_all a0 _ (@order_complete host net s0 schedule Hall)).
  rewrite (@existsb_all a0 _ (Permutation_refl allAdapters)).
  reflexivity.
Qed.

Lemma X15_witness :
  App.state
    (App.run Samples.blockDown Samples.schedule
       (App.start Samples.host initialState)) =
  snd (exec Samples.blockDown (Sequential.fetchLatestData Samples.host)
         initialState).
Proof.
  apply (@X15_variants_agree_with_one_failure Samples.host
           Samples.blockDown initialState Samples.schedule).
  - vm_compute. repeat constructor.
  - reflexivity.
Defined.

(** X16.  The join of a [Promise.all] cycle is fulfilled exactly when
    every adapter has had the answers it needs, and is pending until
    then: one answer for an adapter whose fetch is rejected or has a bad
    status, two (the response and its body) otherwise; answers beyond
    these change nothing. *)
Theorem X16_cycle_completes_when_answered
    (host : Host) (net : Network) (s0 : AppState) (schedule : list nat) :
  App.joined (App.run net schedule (App.start host s0)) =
    (if forallb
          (fun a => (answersNeeded host net a <=?
                     count_occ Nat.eq_dec schedule (App.slot a))%nat)
          allAdapters
     then Fulfilled else Pending)
  /\ forall a,
       answersNeeded host net a =
       match net (adapterUrl a) with
       | inr resp => if ok resp then 2 else 1
       | inl _ => 1
       end.
Proof.
  split.
  - pose proof (CycleInv_start host net s0) as H0.
    pose proof (CycleInv_run schedule H0) as Hc.
    rewrite (inv_joined Hc), (promises_four _ (inv_length Hc)).
    assert (Hful : forall a,
      isFulfilled (task (App.run net schedule (App.start host s0)) a) =
      (answersNeeded host net a <=?
       count_occ Nat.eq_dec schedule (App.slot a))%nat).
    { intros a. unfold answersNeeded.
      pose proof (stepsLeft_run schedule a H0) as Hs.
      replace (task (App.start host s0) a) with (adapterFn host a) in Hs
        by (destruct a; reflexivity).
      pose proof (inv_guarded Hc a) as Hg.
      destruct (Nat.leb_spec (stepsLeft net (adapterFn host a))
                  (count_occ Nat.eq_dec schedule (App.slot a))) as [Hle|Hlt].
      - rewrite (Guarded_stepsLeft Hg); [reflexivity | lia].
      - destruct Hg as [Hret | (b & Hb & Hsusp & _)].
        + rewrite Hret in Hs. simpl in Hs. lia.
        + rewrite Hb. destruct b; simpl in *; auto; discriminate. }
    unfold allAdapters. cbn [forallb]. now rewrite !Hful.
  - intros a. unfold answersNeeded.
    destruct a;
      unfold adapterFn, adapterUrl, fetchLatestBlockInfo,
        fetchLatestBlockInfo_try, fetchBtcMetrics, fetchBtcMetrics_try,
        fetchPriceData, fetchPriceData_try, fetchFearGreedIndex,
        fetchFearGreedIndex_try;
      simpl; repeat next_case; reflexivity.
Qed.
